(** * near-membrane-dom: the iframe virtual environment (browser-realm.ts)

    A shallow embedding of [createDetachableIframe] and
    [createIframeVirtualEnvironment] together with the module state they
    share ([defaultGlobalOwnKeys] and the document-to-connector weak map),
    and the properties of the realm-bridging layer proved over it.

    The host DOM is a finite map from node identities to node records; every
    DOM mutation the source performs is one [DomEvent], applied to the map
    and appended to a log, so that the intermediate states of a call are the
    replays of the prefixes of what it logged. *)

From stdpp Require Import gmap strings list fin_maps fin_sets sets.

Open Scope string_scope.
Open Scope list_scope.

(** ** JavaScript values *)

(** Identity of an object.  The window of the browsing context nested in an
    iframe is identified by its iframe element. *)
Inductive ObjectRef :=
  | HostRef (n : nat)
  | ContentWindow (iframe : nat).

Inductive Value :=
  | VUndefined
  | VNull
  | VBoolean (b : bool)
  | VNumber (n : Z)
  | VString (s : string)
  | VSymbol (n : nat)
  | VFunction (n : nat)
  | VObject (r : ObjectRef).

#[global] Instance ObjectRef_eq_dec : EqDecision ObjectRef.
Proof. solve_decision. Defined.

#[global] Instance Value_eq_dec : EqDecision Value.
Proof. solve_decision. Defined.

(** The [typeof] operator. *)
Definition typeof (v : Value) : string :=
  match v with
  | VUndefined => "undefined"
  | VNull => "object"
  | VBoolean _ => "boolean"
  | VNumber _ => "number"
  | VString _ => "string"
  | VSymbol _ => "symbol"
  | VFunction _ => "function"
  | VObject _ => "object"
  end.

(** [typeof v !== 'object' || v === null], the guard used three times. *)
Definition notNonNullObject (v : Value) : bool :=
  negb (bool_decide (typeof v = "object")) || bool_decide (v = VNull).

(** Property keys are strings or symbols. *)
Inductive PropertyKey :=
  | KString (s : string)
  | KSymbol (n : nat).

#[global] Instance PropertyKey_eq_dec : EqDecision PropertyKey.
Proof. solve_decision. Defined.

#[global] Instance PropertyKey_countable : Countable PropertyKey.
Proof.
  refine (inj_countable'
            (fun k => match k with KString s => inl s | KSymbol n => inr n end)
            (fun x => match x with inl s => KString s | inr n => KSymbol n end) _).
  by intros [].
Defined.

Abbreviation PropertyKeys := (list PropertyKey).
Abbreviation PropertyDescriptor := Value.
Abbreviation PropertyDescriptorMap := (gmap PropertyKey PropertyDescriptor).

(** ** The host DOM *)

Inductive NodeKind :=
  | DocumentNode
  | ElementNode (tagName : string)
  | OtherNode.

#[global] Instance NodeKind_eq_dec : EqDecision NodeKind.
Proof. solve_decision. Defined.

Record Node := mkNode {
  nodeKind : NodeKind;
  childNodes : list nat;
  style : gmap string string;
  attributes : gmap string string;
  (* of a document: it is the active document of a browsing context;
     of an iframe element: it hosts a nested browsing context *)
  browsingContext : bool
}.

Abbreviation Dom := (gmap nat Node).

Definition isElement (n : Node) : bool :=
  match nodeKind n with ElementNode _ => true | _ => false end.

Definition hasTag (tags : list string) (n : Node) : bool :=
  match nodeKind n with
  | ElementNode t => bool_decide (t ∈ tags)
  | _ => false
  end.

Definition childrenOf (d : Dom) (n : nat) : list nat :=
  match d !! n with Some nd => childNodes nd | None => [] end.

Definition nodeSatisfies (d : Dom) (p : Node → bool) (n : nat) : bool :=
  match d !! n with Some nd => p nd | None => false end.

(** [Node.prototype.lastChild]. *)
Definition lastChild (d : Dom) (n : nat) : option nat := last (childrenOf d n).

(** The document element: the element child of the document. *)
Definition documentElement (d : Dom) (doc : nat) : option nat :=
  head (filter (λ c, nodeSatisfies d isElement c = true) (childrenOf d doc)).

(** [Document.prototype.body]: the first child of the html document element
    that is a body or a frameset element, null when there is none. *)
Definition body (d : Dom) (doc : nat) : option nat :=
  match documentElement d doc with
  | Some h =>
      if nodeSatisfies d (hasTag ["html"]) h
      then head (filter (λ c, nodeSatisfies d (hasTag ["body"; "frameset"]) c = true)
                        (childrenOf d h))
      else None
  | None => None
  end.

(** [target] is a descendant of [root], searched to depth [fuel]. *)
Fixpoint descendant (fuel : nat) (d : Dom) (root target : nat) : bool :=
  match fuel with
  | O => false
  | S f =>
      existsb (λ c, bool_decide (c = target) || descendant f d c target)
              (childrenOf d root)
  end.

Definition isDescendant (d : Dom) (root target : nat) : Prop :=
  ∃ fuel, descendant fuel d root target = true.

(** Every child identity names a node of the map. *)
Definition domClosed (d : Dom) : Prop :=
  ∀ n nd c, d !! n = Some nd → c ∈ childNodes nd → is_Some (d !! c).

Definition domClosedb (d : Dom) : bool :=
  forallb (λ '(_, nd), forallb (λ c, bool_decide (is_Some (d !! c))) (childNodes nd))
          (map_to_list d).

(** ** DOM mutations *)

Inductive DomEvent :=
  | EvCreateElement (doc : nat) (tag : string) (node : nat)
  | EvSetStyle (node : nat) (prop value : string)
  | EvSetAttribute (node : nat) (name value : string)
  | EvAppendChild (parent child : nat)
  | EvRemove (node : nat)
  | EvDocumentOpen (window : ObjectRef)
  | EvDocumentClose (window : ObjectRef).

#[global] Instance DomEvent_eq_dec : EqDecision DomEvent.
Proof. solve_decision. Defined.

Definition newElement (tag : string) : Node :=
  mkNode (ElementNode tag) [] ∅ ∅ false.

Definition withChildren (f : list nat → list nat) (n : Node) : Node :=
  mkNode (nodeKind n) (f (childNodes n)) (style n) (attributes n) (browsingContext n).

(** The declarations of a style map as the text of the style content
    attribute, one "name: value;" per declaration: "display: none;" when
    display none is the only one.  The declarations are listed in the order
    of the map. *)
Definition styleText (s : gmap string string) : string :=
  String.concat " " ((λ '(prop, value), prop +:+ ": " +:+ value +:+ ";") <$> map_to_list s).

(** Writing a property of the style declaration of an element also updates
    its style content attribute. *)
Definition withStyle (prop value : string) (n : Node) : Node :=
  mkNode (nodeKind n) (childNodes n) (<[prop := value]> (style n))
         (<["style" := styleText (<[prop := value]> (style n))]> (attributes n))
         (browsingContext n).

Definition withAttribute (name value : string) (n : Node) : Node :=
  mkNode (nodeKind n) (childNodes n) (style n) (<[name := value]> (attributes n))
         (browsingContext n).

Definition withBrowsingContext (b : bool) (n : Node) : Node :=
  mkNode (nodeKind n) (childNodes n) (style n) (attributes n)
         (if hasTag ["iframe"] n then b else browsingContext n).

(** Unlink [n] from whatever parent holds it. *)
Definition unlink (n : nat) (d : Dom) : Dom :=
  withChildren (filter (λ c, c ≠ n)) <$> d.

(** [n] is in the tree of a document that has a browsing context: it is a
    descendant of such a document.  A tree of [size d] nodes has no path
    longer than that. *)
Definition inBrowsingContext (d : Dom) (n : nat) : bool :=
  existsb (λ '(doc, nd),
             match nodeKind nd with
             | DocumentNode => browsingContext nd && descendant (size d) d doc n
             | _ => false
             end)
          (map_to_list d).

(** The effect of one mutation on the DOM.  Appending moves the child: it is
    unlinked first.  An iframe that has landed in the tree of a document
    with a browsing context hosts a nested browsing context from then on,
    and an iframe that has landed elsewhere hosts none; removing it
    discards the context. *)
Definition applyEvent (ev : DomEvent) (d : Dom) : Dom :=
  match ev with
  | EvCreateElement _ tag n => <[n := newElement tag]> d
  | EvSetStyle n prop v => alter (withStyle prop v) n d
  | EvSetAttribute n name v => alter (withAttribute name v) n d
  | EvAppendChild p c =>
      let d' := alter (withChildren (λ cs, cs ++ [c])) p (unlink c d) in
      alter (withBrowsingContext (inBrowsingContext d' c)) c d'
  | EvRemove n => alter (withBrowsingContext false) n (unlink n d)
  | EvDocumentOpen _ | EvDocumentClose _ => d
  end.

Definition replay (evs : list DomEvent) (d : Dom) : Dom :=
  foldl (λ acc ev, applyEvent ev acc) d evs.

(** ** Module state and the effect monad *)

(** A connector is an object with an identity, bound to the realm entry
    point it was built from. *)
Record Connector := mkConnector {
  connectorId : nat;
  connectorTarget : Value
}.

#[global] Instance Connector_eq_dec : EqDecision Connector.
Proof. solve_decision. Defined.

(** The state a call reads and writes: the host DOM with the log of the
    mutations applied to it, and the two module-level bindings
    [defaultGlobalOwnKeys] and [blueDocumentToBlueCreateHooksCallbackMap].
    The weak map is keyed by document identity; collection of unreachable
    keys is not part of the model. *)
Record World := mkWorld {
  hostDom : Dom;
  domLog : list DomEvent;
  defaultGlobalOwnKeys : option PropertyKeys;
  blueDocumentToBlueCreateHooksCallbackMap : gmap nat Connector;
  connectorCount : nat
}.

Inductive Exception :=
  | TypeError (message : string)
  | HierarchyRequestError.

Inductive Completion (A : Type) :=
  | Return (a : A)
  | Throw (e : Exception).
Arguments Return {A} a.
Arguments Throw {A} e.

Definition M (A : Type) : Type := World → Completion A * World.

#[global] Instance M_ret : MRet M := λ A a w, (Return a, w).

#[global] Instance M_bind : MBind M := λ A B k m w,
  match m w with
  | (Return a, w') => k a w'
  | (Throw e, w') => (Throw e, w')
  end.

Definition throw {A} (e : Exception) : M A := λ w, (Throw e, w).

(** Perform one DOM mutation: apply it and log it. *)
Definition emit (ev : DomEvent) : M unit :=
  λ w, (Return tt,
        mkWorld (applyEvent ev (hostDom w)) (domLog w ++ [ev])
                (defaultGlobalOwnKeys w)
                (blueDocumentToBlueCreateHooksCallbackMap w) (connectorCount w)).

Definition getDom : M Dom := λ w, (Return (hostDom w), w).

(** *** The DOM intrinsics captured at the top of the module *)

Definition illegalInvocation : Exception := TypeError "Illegal invocation".

(** [Document.prototype.createElement]; the new element has an identity no
    node of the map has. *)
Definition DocumentProtoCreateElement (doc : nat) (tag : string) : M nat :=
  d ← getDom;
  match nodeKind <$> d !! doc with
  | Some DocumentNode =>
      let n := fresh (dom d) in
      emit (EvCreateElement doc tag n);; mret n
  | _ => throw illegalInvocation
  end.

Definition DocumentProtoBodyGetter (doc : nat) : M (option nat) :=
  d ← getDom; mret (body d doc).

Definition NodeProtoLastChildGetter (n : nat) : M (option nat) :=
  d ← getDom; mret (lastChild d n).

(** [style.display = value] on the declaration returned by the style getter;
    the style content attribute follows. *)
Definition setStyleProperty (n : nat) (prop value : string) : M unit :=
  emit (EvSetStyle n prop value).

(** [Element.prototype.setAttribute], for the attributes that reflect into
    nothing else, as sandbox. *)
Definition ElementProtoSetAttribute (n : nat) (name value : string) : M unit :=
  emit (EvSetAttribute n name value).

(** The parent may receive an element child: it is an element, or a
    document that has no element child yet. *)
Definition acceptsElementChild (d : Dom) (p : nat) : bool :=
  match nodeKind <$> d !! p with
  | Some (ElementNode _) => true
  | Some DocumentNode =>
      negb (existsb (nodeSatisfies d isElement) (childrenOf d p))
  | _ => false
  end.

(** [Node.prototype.appendChild] applied to [parent]; a null receiver is not
    a node. *)
Definition NodeProtoAppendChild (parent : option nat) (child : nat) : M unit :=
  d ← getDom;
  match parent with
  | None => throw illegalInvocation
  | Some p =>
      if bool_decide (is_Some (d !! p)) then
        if acceptsElementChild d p && negb (bool_decide (p = child))
        then emit (EvAppendChild p child)
        else throw HierarchyRequestError
      else throw illegalInvocation
  end.

Definition ElementProtoRemove (n : nat) : M unit := emit (EvRemove n).

(** [HTMLIFrameElement.prototype.contentWindow]: the window of the nested
    browsing context, null when the iframe hosts none. *)
Definition HTMLIFrameElementProtoContentWindowGetter (iframe : nat) : M Value :=
  d ← getDom;
  mret (if nodeSatisfies d browsingContext iframe
       then VObject (ContentWindow iframe) else VNull).

Definition DocumentProtoOpen (w : ObjectRef) : M unit := emit (EvDocumentOpen w).
Definition DocumentProtoClose (w : ObjectRef) : M unit := emit (EvDocumentClose w).

(** ** createDetachableIframe *)

Definition IFRAME_SANDBOX_ATTRIBUTE_VALUE : string := "allow-same-origin allow-scripts".

Definition createDetachableIframe (doc : nat) : M nat :=
  iframe ← DocumentProtoCreateElement doc "iframe";
  b ← DocumentProtoBodyGetter doc;
  parent ← match b with
           | Some p => mret (Some p)
           | None => NodeProtoLastChildGetter doc
           end;
  setStyleProperty iframe "display" "none";;
  ElementProtoSetAttribute iframe "sandbox" IFRAME_SANDBOX_ATTRIBUTE_VALUE;;
  NodeProtoAppendChild parent iframe;;
  mret iframe.

(** ** Collaborators of the module *)

(** The record [getCachedGlobalObjectReferences] resolves a window to; only
    the fields this module reads. *)
Record CachedBlueReferencesRecord := mkBlueRefs {
  document : nat;
  DocumentProto : Value;
  window : Value;
  EventTargetProto : Value;
  EventTargetProtoOwnKeys : PropertyKeys
}.

(** What the resolver may hand back: the record, or one of the two values
    the guard after it rejects. *)
Inductive CachedRefs :=
  | RefsUndefined
  | RefsNull
  | RefsRecord (r : CachedBlueReferencesRecord).

(** The imports whose code is outside this module and on which nothing is
    assumed: they are parameters of the development.
    [globalOwnedDescriptorNames] is the table of names
    [removeWindowDescriptors] deletes; [globalThisDefined] is
    [typeof globalThis !== 'undefined']. *)
Class Collaborators := {
  getCachedGlobalObjectReferences : Value → CachedRefs;
  getFilteredGlobalOwnKeys : Value → PropertyKeys;
  filterWindowKeys : PropertyKeys → PropertyKeys;
  unforgeablePoisonedWindowKeys : PropertyKeys;
  globalOwnedDescriptorNames : gset PropertyKey;
  globalThisDefined : bool
}.

Record BrowserEnvironmentOptions := mkOptions {
  distortionCallback : Value;
  endowments : option PropertyDescriptorMap;
  globalObjectShape : Value;
  keepAlive : option bool;
  instrumentation : Value
}.

(** [ObjectAssign({ __proto__: null }, options)] destructured, with the
    default of [keepAlive]. *)
Definition noOptions : BrowserEnvironmentOptions :=
  mkOptions VUndefined None VUndefined None VUndefined.

Definition assignedOptions (options : option BrowserEnvironmentOptions)
  : BrowserEnvironmentOptions := default noOptions options.

Definition keepAliveOf (o : BrowserEnvironmentOptions) : bool :=
  default false (keepAlive o).

(** *** The membrane, as the configuration it was given *)

Inductive EnvOp :=
  | OpLinkIntrinsics (globalObject : Value)
  | OpLink (path : list string)
  | OpRemapProto (doc : nat) (proto : Value)
  | OpLazyRemapProperties (target : Value) (ownKeys : PropertyKeys)
                          (unforgeableGlobalThisKeys : option PropertyKeys)
  | OpRemapProperties (target : Value) (descs : PropertyDescriptorMap).

#[global] Instance EnvOp_eq_dec : EqDecision EnvOp.
Proof. solve_decision. Defined.

Record VirtualEnvironment := mkEnv {
  blueConnector : Connector;
  redConnector : Connector;
  envDistortionCallback : Value;
  envInstrumentation : Value;
  envOps : list EnvOp
}.

(** Modelled from the spec: [createBlueConnector] and [createRedConnector]
    of near-membrane-base are not in this module.  Each "builds a new"
    connector "bound to" its argument: a fresh identity, taken from the
    count of connectors built so far. *)
Definition newConnector (target : Value) : M Connector :=
  λ w, (Return (mkConnector (connectorCount w) target),
        mkWorld (hostDom w) (domLog w) (defaultGlobalOwnKeys w)
                (blueDocumentToBlueCreateHooksCallbackMap w) (S (connectorCount w))).

Definition createBlueConnector (globalObject : Value) : M Connector :=
  newConnector globalObject.

Definition createRedConnector (evaluator : Value) : M Connector :=
  newConnector evaluator.

(** Modelled from the spec: the [VirtualEnvironment] constructor and the
    membrane primitives [linkIntrinsics], [link], [remapProto],
    [lazyRemapProperties] and [remapProperties] of near-membrane-base are
    not in this module.  The membrane instance is the record of the
    connectors and options it was built from and of the primitives applied
    to it, in order. *)
Definition newVirtualEnvironment (blue red : Connector) (distortion instr : Value)
  : VirtualEnvironment := mkEnv blue red distortion instr [].

Definition record (op : EnvOp) (env : VirtualEnvironment) : VirtualEnvironment :=
  mkEnv (blueConnector env) (redConnector env) (envDistortionCallback env)
        (envInstrumentation env) (envOps env ++ [op]).

Definition linkIntrinsics (env : VirtualEnvironment) (globalObject : Value) :=
  record (OpLinkIntrinsics globalObject) env.
Definition link (path : list string) (env : VirtualEnvironment) :=
  record (OpLink path) env.
Definition remapProto (doc : nat) (proto : Value) (env : VirtualEnvironment) :=
  record (OpRemapProto doc proto) env.
Definition lazyRemapProperties (target : Value) (ownKeys : PropertyKeys)
    (unforgeableGlobalThisKeys : option PropertyKeys) (env : VirtualEnvironment) :=
  record (OpLazyRemapProperties target ownKeys unforgeableGlobalThisKeys) env.
Definition remapProperties (target : Value) (descs : PropertyDescriptorMap)
    (env : VirtualEnvironment) :=
  record (OpRemapProperties target descs) env.

(** Modelled from the spec: [lazyRemapProperties(obj, nameList, excludeList?)]
    bridges lazily every name of the list that the exclusion list does not
    hold ("the PoisonedKeySet is excluded from this set"). *)
Definition lazilyBridged (ownKeys : PropertyKeys) (excluded : option PropertyKeys)
  : PropertyKeys :=
  filter (λ k, k ∉ default [] excluded) ownKeys.

(** Modelled from the spec: [assignFilteredGlobalDescriptorsFromPropertyDescriptorMap]
    of near-membrane-base is not in this module; it copies the descriptors
    of [source] onto [target], a descriptor of [source] replacing one of the
    same name. *)
Definition assignFilteredGlobalDescriptorsFromPropertyDescriptorMap
    (target source : PropertyDescriptorMap) : PropertyDescriptorMap :=
  source ∪ target.

Section BrowserRealm.
Context {host : Collaborators}.

(** Modelled from the spec: [removeWindowDescriptors] of ./window is not in
    this module; it is the descriptor sanitizer that strips "any name
    already claimed by the global-object-owned descriptor set". *)
Definition removeWindowDescriptors (descs : PropertyDescriptorMap)
  : PropertyDescriptorMap :=
  filter (λ kv, kv.1 ∉ globalOwnedDescriptorNames) descs.

(** Lines 111-115: the default keys are computed from the sandbox window
    when they are needed and the binding is still null. *)
Definition shouldUseDefaultGlobalOwnKeys (globalObjectShape : Value) : bool :=
  notNonNullObject globalObjectShape.

Definition ensureDefaultGlobalOwnKeys (useDefault : bool) (redWindow : Value)
  : M unit :=
  λ w, if useDefault && bool_decide (defaultGlobalOwnKeys w = None)
       then (Return tt,
             mkWorld (hostDom w) (domLog w)
                     (Some (filterWindowKeys (getFilteredGlobalOwnKeys redWindow)))
                     (blueDocumentToBlueCreateHooksCallbackMap w) (connectorCount w))
       else (Return tt, w).

(** Lines 116-122: the connector of the host document, built on a miss. *)
Definition weakMapGet (doc : nat) : M (option Connector) :=
  λ w, (Return (blueDocumentToBlueCreateHooksCallbackMap w !! doc), w).

Definition weakMapSet (doc : nat) (c : Connector) : M unit :=
  λ w, (Return tt,
        mkWorld (hostDom w) (domLog w) (defaultGlobalOwnKeys w)
                (<[doc := c]> (blueDocumentToBlueCreateHooksCallbackMap w))
                (connectorCount w)).

Definition cachedBlueConnector (globalObject : Value) (doc : nat) : M Connector :=
  cached ← weakMapGet doc;
  match cached with
  | Some c => mret c
  | None =>
      c ← createBlueConnector globalObject;
      weakMapSet doc c;;
      mret c
  end.

(** [redWindow.eval]: reading a property of null throws. *)
Definition evalOf (redWindow : Value) : M Value :=
  match redWindow with
  | VNull | VUndefined => throw (TypeError "Cannot read properties of null")
  | v => mret v
  end.

(** The key list handed to [lazyRemapProperties] for the window. *)
Definition selectedGlobalOwnKeys (useDefault : bool) (globalObjectShape : Value)
  : M PropertyKeys :=
  λ w, (Return (if useDefault
                then default [] (defaultGlobalOwnKeys w)
                else filterWindowKeys (getFilteredGlobalOwnKeys globalObjectShape)),
        w).

(** Lines 157-162. *)
Definition filterEndowments (endowments : PropertyDescriptorMap)
  : PropertyDescriptorMap :=
  removeWindowDescriptors
    (assignFilteredGlobalDescriptorsFromPropertyDescriptorMap ∅ endowments).

Definition remapEndowments (blueWindow : Value)
    (endowments : option PropertyDescriptorMap) (env : VirtualEnvironment)
  : VirtualEnvironment :=
  match endowments with
  | Some e => remapProperties blueWindow (filterEndowments e) env
  | None => env
  end.

(** Lines 171-179. *)
Definition finishLifecycle (keep : bool) (iframe : nat) (redWindow : Value)
  : M unit :=
  if keep then
    match redWindow with
    | VObject redDocument =>
        DocumentProtoOpen redDocument;;
        DocumentProtoClose redDocument
    | _ => throw (TypeError "Cannot destructure property of null")
    end
  else ElementProtoRemove iframe.

Definition createIframeVirtualEnvironment (globalObject : Value)
    (options : option BrowserEnvironmentOptions) : M VirtualEnvironment :=
  if notNonNullObject globalObject
  then throw (TypeError "Missing global object virtualization target.")
  else
    match getCachedGlobalObjectReferences globalObject with
    | RefsUndefined | RefsNull => throw (TypeError "Invalid virtualization target.")
    | RefsRecord blueRefs =>
        let o := assignedOptions options in
        let keep := keepAliveOf o in
        iframe ← createDetachableIframe (document blueRefs);
        redWindow ← HTMLIFrameElementProtoContentWindowGetter iframe;
        let useDefault := shouldUseDefaultGlobalOwnKeys (globalObjectShape o) in
        ensureDefaultGlobalOwnKeys useDefault redWindow;;
        blue ← cachedBlueConnector globalObject (document blueRefs);
        evaluator ← evalOf redWindow;
        red ← createRedConnector evaluator;
        let env := newVirtualEnvironment blue red (distortionCallback o)
                                         (instrumentation o) in
        let env := linkIntrinsics env globalObject in
        let env := if globalThisDefined
                   then link ["document"] env
                   else link ["window"; "document"] env in
        let env := link ["__proto__"; "__proto__"; "__proto__"] env in
        let env := remapProto (document blueRefs) (DocumentProto blueRefs) env in
        keys ← selectedGlobalOwnKeys useDefault (globalObjectShape o);
        let env := lazyRemapProperties (window blueRefs) keys
                     (if keep then None else Some unforgeablePoisonedWindowKeys) env in
        let env := remapEndowments (window blueRefs) (endowments o) env in
        let env := lazyRemapProperties (EventTargetProto blueRefs)
                     (EventTargetProtoOwnKeys blueRefs) None env in
        finishLifecycle keep iframe redWindow;;
        mret env
    end.

End BrowserRealm.

(** ** Derived notions used by the statements *)

(** The world after the mutations [evs] have been performed in it. *)
Definition logged (evs : list DomEvent) (w : World) : World :=
  mkWorld (replay evs (hostDom w)) (domLog w ++ evs) (defaultGlobalOwnKeys w)
          (blueDocumentToBlueCreateHooksCallbackMap w) (connectorCount w).

Definition iframeSetupEvents (doc i : nat) : list DomEvent :=
  [EvCreateElement doc "iframe" i;
   EvSetStyle i "display" "none";
   EvSetAttribute i "sandbox" IFRAME_SANDBOX_ATTRIBUTE_VALUE].

Definition iframeEvents (doc i p : nat) : list DomEvent :=
  iframeSetupEvents doc i ++ [EvAppendChild p i].

(** [body ?? lastChild], the parent the iframe is appended to. *)
Definition iframeParent (d : Dom) (doc : nat) : option nat :=
  match body d doc with
  | Some b => Some b
  | None => lastChild d doc
  end.

(** The node carries the sandbox attribute and is hidden. *)
Definition sandboxedAndHidden (d : Dom) (n : nat) : Prop :=
  ∃ nd, d !! n = Some nd
        ∧ attributes nd !! "sandbox" = Some IFRAME_SANDBOX_ATTRIBUTE_VALUE
        ∧ style nd !! "display" = Some "none".


(** ** What a configured membrane bridges *)

(** The lazy remaps applied to the membrane, in order. *)
Definition lazyRemaps (env : VirtualEnvironment)
  : list (Value * PropertyKeys * option PropertyKeys) :=
  omap (λ op, match op with
              | OpLazyRemapProperties t ks ex => Some (t, ks, ex)
              | _ => None
              end) (envOps env).

(** The first of them is the one for the global object (lines 146-156). *)
Definition globalRemap (env : VirtualEnvironment)
  : option (Value * PropertyKeys * option PropertyKeys) :=
  head (lazyRemaps env).

(** Modelled from the spec: what one primitive bridges on [target], lazily
    ([lazyRemapProperties], each listed name that is not excluded) and
    eagerly ([remapProperties(obj, descriptorMap)], each name of the map). *)
Definition lazyNames (target : Value) (op : EnvOp) : gset PropertyKey :=
  match op with
  | OpLazyRemapProperties t ks ex =>
      if decide (t = target) then list_to_set (lazilyBridged ks ex) else ∅
  | _ => ∅
  end.

Definition eagerNames (target : Value) (op : EnvOp) : gset PropertyKey :=
  match op with
  | OpRemapProperties t descs => if decide (t = target) then dom descs else ∅
  | _ => ∅
  end.

(** Names bridged lazily, and eagerly, on [target] by a membrane. *)
Definition lazySurface (target : Value) (env : VirtualEnvironment) : gset PropertyKey :=
  ⋃ (lazyNames target <$> envOps env).

Definition eagerSurface (target : Value) (env : VirtualEnvironment) : gset PropertyKey :=
  ⋃ (eagerNames target <$> envOps env).

Definition bridgedSurface (target : Value) (env : VirtualEnvironment) : gset PropertyKey :=
  lazySurface target env ∪ eagerSurface target env.

Definition isRemapProperties (op : EnvOp) : bool :=
  match op with OpRemapProperties _ _ => true | _ => false end.

(** The options with one field replaced. *)
Definition withGlobalObjectShape (shape : Value) (o : BrowserEnvironmentOptions) :=
  mkOptions (distortionCallback o) (endowments o) shape (keepAlive o) (instrumentation o).

Definition withEndowments (e : option PropertyDescriptorMap)
    (o : BrowserEnvironmentOptions) :=
  mkOptions (distortionCallback o) e (globalObjectShape o) (keepAlive o)
            (instrumentation o).

(** ** Configurations and sequences of calls *)

Record Call := mkCall {
  callTarget : Value;
  callOptions : option BrowserEnvironmentOptions
}.

Section Runs.
Context {host : Collaborators}.

(** Each call of the list, run in the world the previous one left; the
    completion of each call with the world after it. *)
Fixpoint runCalls (cs : list Call) (w : World)
  : list (Completion VirtualEnvironment * World) :=
  match cs with
  | [] => []
  | c :: rest =>
      let r := createIframeVirtualEnvironment (callTarget c) (callOptions c) w in
      r :: runCalls rest r.2
  end.

(** The primitives a call that returns has applied to its membrane, in
    order (lines 129-165), given the key list and the lifecycle choice. *)
Definition configuredOps (g : Value) (r : CachedBlueReferencesRecord)
    (keys : PropertyKeys) (keep : bool) (endow : option PropertyDescriptorMap)
  : list EnvOp :=
  [OpLinkIntrinsics g;
   OpLink (if globalThisDefined then ["document"] else ["window"; "document"]);
   OpLink ["__proto__"; "__proto__"; "__proto__"];
   OpRemapProto (document r) (DocumentProto r);
   OpLazyRemapProperties (window r) keys
     (if keep then None else Some unforgeablePoisonedWindowKeys)]
  ++ match endow with
     | Some e => [OpRemapProperties (window r) (filterEndowments e)]
     | None => []
     end
  ++ [OpLazyRemapProperties (EventTargetProto r) (EventTargetProtoOwnKeys r) None].

(** A call uses the default keys. *)
Definition usesDefaultKeys (c : Call) : bool :=
  shouldUseDefaultGlobalOwnKeys (globalObjectShape (assignedOptions (callOptions c))).

(** The host document a call resolves to. *)
Definition resolvedDocument (c : Call) : option nat :=
  match getCachedGlobalObjectReferences (callTarget c) with
  | RefsRecord r => Some (document r)
  | _ => None
  end.
End Runs.

(** Connectors in the weak map were built before the count reached its
    present value, and no two documents hold connectors of one identity. *)
Definition cacheSound (w : World) : Prop :=
  (∀ doc c, blueDocumentToBlueCreateHooksCallbackMap w !! doc = Some c →
            connectorId c < connectorCount w)
  ∧ (∀ d1 d2 c1 c2,
       blueDocumentToBlueCreateHooksCallbackMap w !! d1 = Some c1 →
       blueDocumentToBlueCreateHooksCallbackMap w !! d2 = Some c2 →
       connectorId c1 = connectorId c2 → d1 = d2).

(** What any call may do to the module state: a default key list, once
    set, stays; the weak map only grows; its soundness is kept. *)
Definition evolves (w w' : World) : Prop :=
  (∀ ks, defaultGlobalOwnKeys w = Some ks → defaultGlobalOwnKeys w' = Some ks)
  ∧ blueDocumentToBlueCreateHooksCallbackMap w ⊆ blueDocumentToBlueCreateHooksCallbackMap w'
  ∧ (cacheSound w → cacheSound w').

(** ** Sample hosts *)

(** The module state when the module has just been loaded. *)
Definition initialWorld (d : Dom) : World := mkWorld d [] None ∅ 0.

(** A document with a head and a body.  The documents of the sample DOMs
    are the active documents of their windows, [inactiveDocumentDom]
    apart. *)
Definition sampleDom : Dom :=
  list_to_map [(0, mkNode DocumentNode [1] ∅ ∅ true);
               (1, mkNode (ElementNode "html") [2; 3] ∅ ∅ false);
               (2, mkNode (ElementNode "head") [] ∅ ∅ false);
               (3, mkNode (ElementNode "body") [] ∅ ∅ false)].

(** A document whose html element has a head only. *)
Definition bodylessDom : Dom :=
  list_to_map [(0, mkNode DocumentNode [1] ∅ ∅ true);
               (1, mkNode (ElementNode "html") [2] ∅ ∅ false);
               (2, mkNode (ElementNode "head") [] ∅ ∅ false)].

(** Two documents, each with a body. *)
Definition twoDocumentsDom : Dom :=
  list_to_map [(0, mkNode DocumentNode [1] ∅ ∅ true);
               (1, mkNode (ElementNode "html") [2; 3] ∅ ∅ false);
               (2, mkNode (ElementNode "head") [] ∅ ∅ false);
               (3, mkNode (ElementNode "body") [] ∅ ∅ false);
               (4, mkNode DocumentNode [5] ∅ ∅ true);
               (5, mkNode (ElementNode "html") [6] ∅ ∅ false);
               (6, mkNode (ElementNode "body") [] ∅ ∅ false)].

Definition sampleRefs (doc : nat) (win : Value) : CachedBlueReferencesRecord :=
  mkBlueRefs doc (VObject (HostRef 100)) win (VObject (HostRef 101))
             [KString "addEventListener"; KString "dispatchEvent"].

(** A host with two windows, [HostRef 0] over document 0 and [HostRef 1]
    over document 4, and a shape object [HostRef 7] with the one key foo. *)
Definition sampleHost : Collaborators := {|
  getCachedGlobalObjectReferences v :=
    match v with
    | VObject (HostRef 0) => RefsRecord (sampleRefs 0 v)
    | VObject (HostRef 1) => RefsRecord (sampleRefs 4 v)
    | VObject (HostRef 2) => RefsNull
    | _ => RefsUndefined
    end;
  getFilteredGlobalOwnKeys v :=
    match v with
    | VObject (ContentWindow _) =>
        [KString "window"; KString "document"; KString "setTimeout"]
    | VObject (HostRef 0) =>
        [KString "window"; KString "document"; KString "setTimeout"; KString "hostOnly"]
    | VObject (HostRef 7) => [KString "foo"]
    | _ => []
    end;
  filterWindowKeys ks :=
    filter (λ k, k ∉ [KString "document"; KString "location"; KString "top"]) ks;
  unforgeablePoisonedWindowKeys := [KString "window"];
  globalOwnedDescriptorNames :=
    {[ KString "document"; KString "location"; KString "top"; KString "window" ]};
  globalThisDefined := true
|}.

Definition sampleOptions (keep : bool) (shape : Value) : BrowserEnvironmentOptions :=
  mkOptions VUndefined
            (Some {[ KString "foo" := VNumber 42; KString "document" := VNumber 1 ]})
            shape (Some keep) VUndefined.

(** Three calls: on the first window, on the second, on the first again. *)
Definition sampleCalls : list Call :=
  [mkCall (VObject (HostRef 0)) None;
   mkCall (VObject (HostRef 1)) None;
   mkCall (VObject (HostRef 0)) (Some (sampleOptions true VUndefined))].

(** ** Further notions, for the properties of the module as a whole *)

(** The iframe element this module makes, hosting a browsing context or
    not. *)
Definition iframeNode (hosting : bool) : Node :=
  mkNode (ElementNode "iframe") []
         {[ "display" := "none" ]}
         {[ "sandbox" := IFRAME_SANDBOX_ATTRIBUTE_VALUE; "style" := "display: none;" ]}
         hosting.


(** A document with a body that is the document of no window, as
    [document.implementation.createHTMLDocument] makes them. *)
Definition inactiveDocumentDom : Dom :=
  list_to_map [(0, mkNode DocumentNode [1] ∅ ∅ false);
               (1, mkNode (ElementNode "html") [2; 3] ∅ ∅ false);
               (2, mkNode (ElementNode "head") [] ∅ ∅ false);
               (3, mkNode (ElementNode "body") [] ∅ ∅ false)].

Definition withKeepAlive (k : option bool) (o : BrowserEnvironmentOptions) :=
  mkOptions (distortionCallback o) (endowments o) (globalObjectShape o) k
            (instrumentation o).

Definition withObservers (distortion instr : Value) (o : BrowserEnvironmentOptions) :=
  mkOptions distortion (endowments o) (globalObjectShape o) (keepAlive o) instr.

(** The host [h] with another enumeration of global own keys. *)
Definition withGlobalOwnKeys (f : Value → PropertyKeys) (h : Collaborators)
  : Collaborators := {|
  getCachedGlobalObjectReferences := getCachedGlobalObjectReferences (Collaborators := h);
  getFilteredGlobalOwnKeys := f;
  filterWindowKeys := filterWindowKeys (Collaborators := h);
  unforgeablePoisonedWindowKeys := unforgeablePoisonedWindowKeys (Collaborators := h);
  globalOwnedDescriptorNames := globalOwnedDescriptorNames (Collaborators := h);
  globalThisDefined := globalThisDefined (Collaborators := h)
|}.


(** A document whose html element has a head only, followed by a comment. *)
Definition commentTailDom : Dom :=
  list_to_map [(0, mkNode DocumentNode [1; 3] ∅ ∅ true);
               (1, mkNode (ElementNode "html") [2] ∅ ∅ false);
               (2, mkNode (ElementNode "head") [] ∅ ∅ false);
               (3, mkNode OtherNode [] ∅ ∅ false)].


(** A primitive with its exclusion list forgotten. *)
Definition withoutExclusion (op : EnvOp) : EnvOp :=
  match op with
  | OpLazyRemapProperties t ks _ => OpLazyRemapProperties t ks None
  | _ => op
  end.

(** Every node of the first world is a node of the second. *)
Definition keepsNodeIdentities (w w' : World) : Prop :=
  ∀ n, is_Some (hostDom w !! n) → is_Some (hostDom w' !! n).
(** * Properties of createDetachableIframe *)

(** ** The monad and the log *)

Lemma logged_nil w : logged [] w = w.
Proof. destruct w. unfold logged. simpl. by rewrite app_nil_r. Qed.

Lemma logged_app evs1 evs2 w : logged evs2 (logged evs1 w) = logged (evs1 ++ evs2) w.
Proof.
  unfold logged, replay. simpl. by rewrite foldl_app, app_assoc.
Qed.

Lemma emit_logged ev w : emit ev w = (Return tt, logged [ev] w).
Proof. reflexivity. Qed.

(** ** Child lists under the DOM mutations *)

Lemma childrenOf_insert (d : Dom) i nd n :
  childrenOf (<[i := nd]> d) n = if decide (n = i) then childNodes nd else childrenOf d n.
Proof.
  unfold childrenOf. destruct (decide (n = i)) as [->|Hne].
  - by rewrite lookup_insert_eq.
  - by rewrite lookup_insert_ne.
Qed.

Lemma childrenOf_alter (f : Node → Node) (d : Dom) i n :
  (∀ nd, childNodes (f nd) = childNodes nd) →
  childrenOf (alter f i d) n = childrenOf d n.
Proof.
  intros Hf. unfold childrenOf. destruct (decide (i = n)) as [->|Hne].
  - rewrite lookup_alter_eq. destruct (d !! n); simpl; [apply Hf | done].
  - by rewrite lookup_alter_ne.
Qed.

Lemma childrenOf_unlink c (d : Dom) n :
  childrenOf (unlink c d) n = filter (λ x, x ≠ c) (childrenOf d n).
Proof.
  unfold childrenOf, unlink. rewrite lookup_fmap. by destruct (d !! n).
Qed.

Lemma childrenOf_append (d : Dom) p c n :
  childrenOf (alter (withChildren (λ cs, cs ++ [c])) p d) n =
  if decide (n = p) then (if decide (is_Some (d !! p)) then childrenOf d p ++ [c] else [])
  else childrenOf d n.
Proof.
  unfold childrenOf. destruct (decide (n = p)) as [->|Hne].
  - rewrite lookup_alter_eq. by destruct (d !! p).
  - by rewrite lookup_alter_ne.
Qed.

(** Children after the three setup mutations: the new element has none and
    every other node keeps its own. *)
Lemma childrenOf_setup (d : Dom) doc i n :
  childrenOf (replay (iframeSetupEvents doc i) d) n =
  if decide (n = i) then [] else childrenOf d n.
Proof.
  unfold iframeSetupEvents, replay. simpl.
  rewrite !childrenOf_alter by done. by rewrite childrenOf_insert.
Qed.

Lemma childrenOf_appended (d : Dom) p c n :
  childrenOf (applyEvent (EvAppendChild p c) d) n =
  if decide (n = p)
  then (if decide (is_Some (d !! p)) then filter (λ x, x ≠ c) (childrenOf d p) ++ [c] else [])
  else filter (λ x, x ≠ c) (childrenOf d n).
Proof.
  cbn [applyEvent]. cbv zeta. rewrite childrenOf_alter by done. rewrite childrenOf_append.
  rewrite !childrenOf_unlink. unfold unlink.
  destruct (decide (n = p)); [|done].
  destruct (decide (is_Some (d !! p))) as [Hs|Hs].
  - rewrite decide_True; [done|]. rewrite lookup_fmap. by apply fmap_is_Some.
  - rewrite decide_False; [done|]. rewrite lookup_fmap. by rewrite fmap_is_Some.
Qed.

Lemma childrenOf_removed (d : Dom) c n :
  childrenOf (applyEvent (EvRemove c) d) n = filter (λ x, x ≠ c) (childrenOf d n).
Proof. simpl. rewrite childrenOf_alter by done. apply childrenOf_unlink. Qed.


(** ** createDetachableIframe, outcome by outcome *)

Lemma bind_unfold {A B} (m : M A) (k : A → M B) w :
  (m ≫= k) w =
  match m w with
  | (Return a, w1) => k a w1
  | (Throw e, w1) => (Throw e, w1)
  end.
Proof. reflexivity. Qed.

Lemma createElement_outcome doc tag w :
  DocumentProtoCreateElement doc tag w =
  match nodeKind <$> hostDom w !! doc with
  | Some DocumentNode =>
      let n := fresh (dom (hostDom w)) in
      (Return n, logged [EvCreateElement doc tag n] w)
  | _ => (Throw illegalInvocation, w)
  end.
Proof.
  unfold DocumentProtoCreateElement, getDom. rewrite bind_unfold.
  by destruct (nodeKind <$> hostDom w !! doc) as [[]|].
Qed.

Lemma bodyGetter_outcome doc w :
  DocumentProtoBodyGetter doc w = (Return (body (hostDom w) doc), w).
Proof. reflexivity. Qed.

Lemma lastChildGetter_outcome n w :
  NodeProtoLastChildGetter n w = (Return (lastChild (hostDom w) n), w).
Proof. reflexivity. Qed.


(** What follows the choice of the parent, run in the world where the
    element has just been created. *)
Lemma configure_and_append doc i (parent : option nat) w :
  let w1 := logged [EvCreateElement doc "iframe" i] w in
  let d3 := replay (iframeSetupEvents doc i) (hostDom w) in
  (setStyleProperty i "display" "none";;
   ElementProtoSetAttribute i "sandbox" IFRAME_SANDBOX_ATTRIBUTE_VALUE;;
   NodeProtoAppendChild parent i;;
   mret i) w1 =
  match parent with
  | Some p =>
      if bool_decide (is_Some (d3 !! p)) then
        if acceptsElementChild d3 p && negb (bool_decide (p = i))
        then (Return i, logged (iframeEvents doc i p) w)
        else (Throw HierarchyRequestError, logged (iframeSetupEvents doc i) w)
      else (Throw illegalInvocation, logged (iframeSetupEvents doc i) w)
  | None => (Throw illegalInvocation, logged (iframeSetupEvents doc i) w)
  end.
Proof.
  intros w1 d3. subst w1.
  unfold setStyleProperty, ElementProtoSetAttribute, NodeProtoAppendChild, getDom.
  unfold mbind, M_bind, mret, M_ret, throw.
  rewrite !emit_logged, !logged_app. cbn [app].
  change (hostDom (logged _ w)) with d3.
  destruct parent as [p|]; [|reflexivity].
  destruct (bool_decide (is_Some (d3 !! p))); [|reflexivity].
  destruct (acceptsElementChild d3 p && negb (bool_decide (p = i))); [|reflexivity].
  by rewrite emit_logged, logged_app.
Qed.

Lemma createDetachableIframe_outcome doc w :
  let d := hostDom w in
  let i := fresh (dom d) in
  let d3 := replay (iframeSetupEvents doc i) d in
  createDetachableIframe doc w =
  match nodeKind <$> d !! doc with
  | Some DocumentNode =>
      match iframeParent (<[i := newElement "iframe"]> d) doc with
      | Some p =>
          if bool_decide (is_Some (d3 !! p)) then
            if acceptsElementChild d3 p && negb (bool_decide (p = i))
            then (Return i, logged (iframeEvents doc i p) w)
            else (Throw HierarchyRequestError, logged (iframeSetupEvents doc i) w)
          else (Throw illegalInvocation, logged (iframeSetupEvents doc i) w)
      | None => (Throw illegalInvocation, logged (iframeSetupEvents doc i) w)
      end
  | _ => (Throw illegalInvocation, w)
  end.
Proof.
  intros d i d3. unfold createDetachableIframe.
  rewrite bind_unfold, createElement_outcome. fold d i.
  destruct (nodeKind <$> d !! doc) as [[]|]; try reflexivity.
  cbv beta iota zeta. rewrite bind_unfold, bodyGetter_outcome. cbv beta iota.
  change (hostDom (logged _ w)) with (<[i := newElement "iframe"]> d).
  unfold iframeParent. rewrite bind_unfold.
  destruct (body _ doc) as [b|].
  - apply (configure_and_append doc i (Some b) w).
  - rewrite lastChildGetter_outcome. apply (configure_and_append doc i _ w).
Qed.

(** ** The host DOM around the new iframe *)

Lemma fresh_unused (d : Dom) : d !! fresh (dom d) = None.
Proof. apply not_elem_of_dom, is_fresh. Qed.

Lemma domClosedb_closed (d : Dom) : domClosedb d = true → domClosed d.
Proof.
  unfold domClosedb, domClosed. intros Hb n nd c Hn Hc.
  rewrite forallb_forall in Hb.
  assert (Hin : In (n, nd) (map_to_list d))
    by by apply list_elem_of_In, elem_of_map_to_list.
  specialize (Hb _ Hin). simpl in Hb. rewrite forallb_forall in Hb.
  eapply bool_decide_eq_true_1, Hb. by apply list_elem_of_In.
Qed.

(** In a closed DOM the identity of a new element is nobody's child. *)
Lemma closed_child_not_fresh (d : Dom) n c :
  domClosed d → c ∈ childrenOf d n → c ≠ fresh (dom d).
Proof.
  unfold childrenOf. intros Hcl Hc ->.
  destruct (d !! n) as [nd|] eqn:Hn; [|by apply elem_of_nil in Hc].
  destruct (Hcl n nd _ Hn Hc) as [x Hx]. by rewrite fresh_unused in Hx.
Qed.

Lemma replay_iframeEvents doc i p (d : Dom) :
  replay (iframeEvents doc i p) d =
  applyEvent (EvAppendChild p i) (replay (iframeSetupEvents doc i) d).
Proof. reflexivity. Qed.

Lemma setup_lookup_iframe doc i (d : Dom) :
  replay (iframeSetupEvents doc i) d !! i =
  Some (withAttribute "sandbox" IFRAME_SANDBOX_ATTRIBUTE_VALUE
          (withStyle "display" "none" (newElement "iframe"))).
Proof.
  unfold iframeSetupEvents, replay. simpl.
  by rewrite !lookup_alter_eq, lookup_insert_eq.
Qed.

Lemma setup_lookup_other doc i (d : Dom) n :
  n ≠ i → replay (iframeSetupEvents doc i) d !! n = d !! n.
Proof.
  intros Hne. unfold iframeSetupEvents, replay. simpl.
  by rewrite !lookup_alter_ne, lookup_insert_ne.
Qed.

Lemma appended_lookup_child (d : Dom) p c nd :
  p ≠ c → d !! c = Some nd →
  applyEvent (EvAppendChild p c) d !! c =
  Some (withBrowsingContext
          (inBrowsingContext (alter (withChildren (λ cs, cs ++ [c])) p (unlink c d)) c)
          (withChildren (filter (λ x, x ≠ c)) nd)).
Proof.
  intros Hne Hc. cbn [applyEvent]. cbv zeta.
  rewrite lookup_alter_eq, lookup_alter_ne by done.
  unfold unlink. by rewrite lookup_fmap, Hc.
Qed.

(** The iframe a successful call leaves in the DOM: hidden, sandboxed, and
    hosting a browsing context or not. *)
Lemma created_iframe_node doc i p (d : Dom) :
  p ≠ i →
  replay (iframeEvents doc i p) d !! i =
  Some (iframeNode (nodeSatisfies (replay (iframeEvents doc i p) d) browsingContext i)).
Proof.
  intros Hne. unfold nodeSatisfies. rewrite replay_iframeEvents.
  by rewrite (appended_lookup_child _ _ _ _ Hne (setup_lookup_iframe doc i d)).
Qed.

Lemma created_iframe_sandboxed doc i p (d : Dom) :
  p ≠ i → sandboxedAndHidden (replay (iframeEvents doc i p) d) i.
Proof.
  intros Hne. eexists. split; [by apply created_iframe_node|]. by split.
Qed.

Lemma created_iframe_last doc i p (d : Dom) :
  is_Some (replay (iframeSetupEvents doc i) d !! p) →
  lastChild (replay (iframeEvents doc i p) d) p = Some i.
Proof.
  intros Hp. unfold lastChild. rewrite replay_iframeEvents, childrenOf_appended.
  rewrite decide_True by done. rewrite decide_True by done. apply last_snoc.
Qed.

Lemma created_iframe_keeps_children doc i p (d : Dom) n c :
  c ≠ i → n ≠ i → c ∈ childrenOf d n →
  c ∈ childrenOf (replay (iframeEvents doc i p) d) n.
Proof.
  intros Hc Hn Hin. rewrite replay_iframeEvents, childrenOf_appended.
  assert (Hkeep : c ∈ filter (λ x, x ≠ i) (childrenOf (replay (iframeSetupEvents doc i) d) n)).
  { rewrite childrenOf_setup, decide_False by done. by apply list_elem_of_filter. }
  destruct (decide (n = p)) as [->|]; [|done].
  destruct (decide (is_Some _)) as [|Hno].
  - apply elem_of_app. by left.
  - exfalso. apply Hno. rewrite setup_lookup_other by done.
    unfold childrenOf in Hin. destruct (d !! p); [eauto | by apply elem_of_nil in Hin].
Qed.

(** ** Descendants *)

Lemma descendant_no_child (d : Dom) target :
  (∀ n, target ∉ childrenOf d n) → ∀ fuel root, descendant fuel d root target = false.
Proof.
  intros Hno fuel. induction fuel as [|f IH]; intros root; [done|].
  simpl. apply not_true_is_false. rewrite existsb_exists.
  intros (c & Hc & Hor). apply orb_true_iff in Hor as [Heq|Hd].
  - apply bool_decide_eq_true_1 in Heq as ->. apply (Hno root). by apply list_elem_of_In.
  - by rewrite IH in Hd.
Qed.

Lemma descendant_child (d : Dom) root target :
  target ∈ childrenOf d root → descendant 1 d root target = true.
Proof.
  intros Hin. simpl. apply existsb_exists. exists target.
  split; [by apply list_elem_of_In|]. by rewrite bool_decide_eq_true_2.
Qed.

Lemma descendant_step (d : Dom) fuel root c target :
  c ∈ childrenOf d root → descendant fuel d c target = true →
  descendant (S fuel) d root target = true.
Proof.
  intros Hin Hd. simpl. apply existsb_exists. exists c.
  split; [by apply list_elem_of_In|]. rewrite Hd. apply orb_true_r.
Qed.

(** Before the append, whatever was already performed, the new element is
    nobody's child. *)
Lemma setup_prefix_detached doc (d : Dom) k n :
  domClosed d →
  let i := fresh (dom d) in
  i ∉ childrenOf (replay (take k (iframeSetupEvents doc i)) d) n.
Proof.
  intros Hcl i Hin.
  assert (Hd : ∀ m, i ∉ childrenOf d m).
  { intros m Hm. by apply (closed_child_not_fresh d m i Hcl Hm). }
  assert (H1 : ∀ m, i ∉ childrenOf (<[i := newElement "iframe"]> d) m).
  { intros m. rewrite childrenOf_insert.
    destruct (decide (m = i)); [apply not_elem_of_nil | apply Hd]. }
  destruct k as [|[|k]]; [by apply (Hd n) | by apply (H1 n) |].
  assert (Hin1 : i ∈ childrenOf (<[i := newElement "iframe"]> d) n); [|by apply (H1 n)].
  destruct k as [|[|k]]; unfold replay in Hin; simpl in Hin;
    by rewrite !childrenOf_alter in Hin by done.
Qed.

Lemma filter_ext_elem {A} (P1 P2 : A → Prop) `{!∀ x, Decision (P1 x), !∀ x, Decision (P2 x)}
    (l : list A) :
  (∀ x, x ∈ l → (P1 x ↔ P2 x)) → filter P1 l = filter P2 l.
Proof.
  induction l as [|a l IH]; intros Hiff; [done|].
  rewrite !filter_cons. rewrite IH by (intros x Hx; apply Hiff; by right).
  apply decide_ext, Hiff. by left.
Qed.

(** Creating the element does not change what the getters of an existing
    document return, in a closed DOM. *)
Lemma iframeParent_created (d : Dom) doc nd :
  domClosed d → is_Some (d !! doc) →
  iframeParent (<[fresh (dom d) := nd]> d) doc = iframeParent d doc.
Proof.
  intros Hcl Hdoc. set (i := fresh (dom d)).
  assert (Hdoci : doc ≠ i).
  { intros ->. destruct Hdoc as [x Hx]. unfold i in Hx. by rewrite fresh_unused in Hx. }
  assert (Hsat : ∀ p n c, c ∈ childrenOf d n →
            nodeSatisfies (<[i := nd]> d) p c = nodeSatisfies d p c).
  { intros p n c Hc. unfold nodeSatisfies. rewrite lookup_insert_ne; [done|].
    intros Heq. by apply (closed_child_not_fresh d n c Hcl Hc). }
  assert (Hch : ∀ n, is_Some (d !! n) → childrenOf (<[i := nd]> d) n = childrenOf d n).
  { intros n [x Hx]. rewrite childrenOf_insert, decide_False; [done|].
    intros ->. unfold i in Hx. by rewrite fresh_unused in Hx. }
  assert (Hde : documentElement (<[i := nd]> d) doc = documentElement d doc).
  { unfold documentElement. rewrite Hch by done. f_equal.
    apply filter_ext_elem. intros c Hc. by rewrite (Hsat _ doc c Hc). }
  unfold iframeParent, body, lastChild. rewrite Hde, (Hch doc Hdoc).
  destruct (documentElement d doc) as [h|] eqn:Hh; [|done].
  assert (Hhin : h ∈ childrenOf d doc).
  { unfold documentElement in Hh. apply head_Some_elem_of in Hh.
    by apply list_elem_of_filter in Hh as [_ ?]. }
  rewrite (Hsat _ doc h Hhin).
  destruct (nodeSatisfies d (hasTag ["html"]) h) eqn:Hhtml; [|done].
  assert (Hhs : is_Some (d !! h)).
  { unfold nodeSatisfies in Hhtml. destruct (d !! h); [eauto | done]. }
  rewrite (Hch h Hhs).
  rewrite (filter_ext_elem _
             (λ c, nodeSatisfies d (hasTag ["body"; "frameset"]) c = true)); [done|].
  intros c Hc. by rewrite (Hsat _ h c Hc).
Qed.

(** ** A call that returns *)

Lemma createDetachableIframe_Return doc w i w' :
  createDetachableIframe doc w = (Return i, w') →
  i = fresh (dom (hostDom w))
  ∧ nodeKind <$> hostDom w !! doc = Some DocumentNode
  ∧ ∃ p, iframeParent (<[i := newElement "iframe"]> (hostDom w)) doc = Some p
         ∧ is_Some (replay (iframeSetupEvents doc i) (hostDom w) !! p)
         ∧ p ≠ i
         ∧ w' = logged (iframeEvents doc i p) w.
Proof.
  rewrite createDetachableIframe_outcome. cbv zeta.
  destruct (nodeKind <$> hostDom w !! doc) as [[]|]; try discriminate.
  destruct (iframeParent _ doc) as [p|] eqn:Hp; [|discriminate].
  destruct (bool_decide (is_Some _)) eqn:Hs; [|discriminate].
  destruct (acceptsElementChild _ p && negb (bool_decide (p = _))) eqn:Hacc; [|discriminate].
  intros [= <- <-]. split; [done|]. split; [done|].
  exists p. split; [by rewrite <- Hp|]. split; [by apply bool_decide_eq_true_1 in Hs|].
  split; [|done].
  apply andb_true_iff in Hacc as [_ Hne]. apply negb_true_iff in Hne.
  by apply bool_decide_eq_false_1 in Hne.
Qed.


(** ** The iframe stays attached, or is detached *)

Lemma iframeParent_reachable (d : Dom) doc p :
  iframeParent d doc = Some p →
  p ∈ childrenOf d doc ∨ ∃ h, h ∈ childrenOf d doc ∧ p ∈ childrenOf d h.
Proof.
  unfold iframeParent, body, lastChild. intros Hp.
  destruct (documentElement d doc) as [h|] eqn:Hh.
  - assert (Hhin : h ∈ childrenOf d doc).
    { unfold documentElement in Hh. apply head_Some_elem_of in Hh.
      by apply list_elem_of_filter in Hh as [_ ?]. }
    destruct (nodeSatisfies d (hasTag ["html"]) h).
    + destruct (head _) as [b|] eqn:Hb.
      * injection Hp as <-. right. exists h. split; [done|].
        apply head_Some_elem_of in Hb. by apply list_elem_of_filter in Hb as [_ ?].
      * left. by apply last_Some_elem_of.
    + left. by apply last_Some_elem_of.
  - left. by apply last_Some_elem_of.
Qed.

Lemma created_iframe_keeps_closed_children doc p (d : Dom) n c :
  domClosed d → c ∈ childrenOf d n →
  c ∈ childrenOf (replay (iframeEvents doc (fresh (dom d)) p) d) n.
Proof.
  intros Hcl Hin. apply created_iframe_keeps_children; [| |done].
  - by apply (closed_child_not_fresh d n).
  - intros ->. unfold childrenOf in Hin. rewrite fresh_unused in Hin.
    by apply elem_of_nil in Hin.
Qed.

Lemma created_iframe_attached doc p (d : Dom) :
  domClosed d → is_Some (d !! doc) →
  let i := fresh (dom d) in
  iframeParent (<[i := newElement "iframe"]> d) doc = Some p →
  is_Some (replay (iframeSetupEvents doc i) d !! p) →
  isDescendant (replay (iframeEvents doc i p) d) doc i.
Proof.
  intros Hcl Hdoc i Hp Hps. unfold i in Hp. rewrite iframeParent_created in Hp by done.
  assert (Hi : i ∈ childrenOf (replay (iframeEvents doc i p) d) p).
  { apply last_Some_elem_of. by apply created_iframe_last. }
  apply iframeParent_reachable in Hp as [Hin | (h & Hh & Hin)].
  - exists 2. eapply descendant_step; [|by apply descendant_child].
    by apply created_iframe_keeps_closed_children.
  - exists 3. eapply descendant_step; [by apply created_iframe_keeps_closed_children|].
    eapply descendant_step; [|by apply descendant_child].
    by apply created_iframe_keeps_closed_children.
Qed.

Lemma removed_detached (d : Dom) i root :
  ¬ isDescendant (applyEvent (EvRemove i) d) root i.
Proof.
  intros [fuel Hd]. rewrite descendant_no_child in Hd; [done|].
  intros n. rewrite childrenOf_removed. rewrite list_elem_of_filter. by intros [? _].
Qed.


(** ** Evolution of the module state *)

Lemma evolves_refl w : evolves w w.
Proof. by split; [|split]. Qed.

Lemma evolves_trans w1 w2 w3 : evolves w1 w2 → evolves w2 w3 → evolves w1 w3.
Proof.
  intros (Hd1 & Hc1 & Hs1) (Hd2 & Hc2 & Hs2). split; [|split].
  - intros ks Hks. by apply Hd2, Hd1.
  - by trans (blueDocumentToBlueCreateHooksCallbackMap w2).
  - intros Hs. by apply Hs2, Hs1.
Qed.

Lemma evolves_logged evs w : evolves w (logged evs w).
Proof. by split; [|split]. Qed.

Lemma createDetachableIframe_logged doc w :
  ∃ evs, (createDetachableIframe doc w).2 = logged evs w.
Proof.
  rewrite createDetachableIframe_outcome. cbv zeta.
  destruct (nodeKind <$> hostDom w !! doc) as [[]|];
    try (exists []; by rewrite logged_nil).
  destruct (iframeParent _ doc) as [p|]; [|by eexists].
  destruct (bool_decide (is_Some _)); [|by eexists].
  destruct (acceptsElementChild _ p && negb (bool_decide (p = _))); by eexists.
Qed.

(** A miss of the weak map keeps it sound: the connector built is newer
    than all it holds. *)
Lemma cacheSound_insert w w' doc g :
  cacheSound w →
  blueDocumentToBlueCreateHooksCallbackMap w !! doc = None →
  blueDocumentToBlueCreateHooksCallbackMap w'
  = <[doc := mkConnector (connectorCount w) g]> (blueDocumentToBlueCreateHooksCallbackMap w) →
  (connectorCount w < connectorCount w')%nat →
  cacheSound w'.
Proof.
  intros [Hlt Hinj] Hnone Hmap Hcount. split; rewrite Hmap.
  - intros d c. rewrite lookup_insert. case_decide.
    + intros [= <-]. simpl. lia.
    + intros Hc. specialize (Hlt _ _ Hc). lia.
  - intros d1 d2 c1 c2. rewrite !lookup_insert.
    repeat case_decide; try congruence.
    + intros [= <-] Hc2 Heq. specialize (Hlt _ _ Hc2). simpl in Heq. lia.
    + intros Hc1 [= <-] Heq. specialize (Hlt _ _ Hc1). simpl in Heq. lia.
    + apply Hinj.
Qed.

Lemma cacheSound_hit w w' :
  cacheSound w →
  blueDocumentToBlueCreateHooksCallbackMap w' = blueDocumentToBlueCreateHooksCallbackMap w →
  (connectorCount w ≤ connectorCount w')%nat →
  cacheSound w'.
Proof.
  intros [Hlt Hinj] Hmap Hcount. split; rewrite Hmap; [|done].
  intros d c Hc. specialize (Hlt _ _ Hc). lia.
Qed.


(** ** Where the iframe is attached, and when *)

(** C7 (as amended): in a closed host DOM, the iframe is appended as the
    last child of the document's body when there is one (and then the call
    returns), and otherwise as the last child of the document's last child
    node: in either case of the node [body ?? lastChild] yields, not of the
    document itself. *)
Theorem createDetachableIframe_parent doc w :
  domClosed (hostDom w) →
  (∀ b, nodeKind <$> hostDom w !! doc = Some DocumentNode →
        body (hostDom w) doc = Some b →
        ∃ i w', createDetachableIframe doc w = (Return i, w')
                ∧ lastChild (hostDom w') b = Some i)
  ∧ (∀ i w', createDetachableIframe doc w = (Return i, w') →
             body (hostDom w) doc = None →
             ∃ p, lastChild (hostDom w) doc = Some p
                  ∧ lastChild (hostDom w') p = Some i).
Proof.
  intros Hcl. set (d := hostDom w). set (i0 := fresh (dom d)). split.
  - intros b Hdoc Hb.
    assert (Hdocs : is_Some (d !! doc)) by (destruct (d !! doc); [eauto | done]).
    assert (Hbody : nodeSatisfies d (hasTag ["body"; "frameset"]) b = true).
    { unfold body in Hb. destruct (documentElement d doc); [|done].
      destruct (nodeSatisfies d (hasTag ["html"]) n); [|done].
      apply head_Some_elem_of in Hb. by apply list_elem_of_filter in Hb as [? _]. }
    assert (Hbi : b ≠ i0).
    { intros ->. unfold nodeSatisfies, i0 in Hbody. by rewrite fresh_unused in Hbody. }
    assert (Hb3 : replay (iframeSetupEvents doc i0) d !! b = d !! b)
      by by apply setup_lookup_other.
    pose proof (iframeParent_created d doc (newElement "iframe") Hcl Hdocs) as Hpar.
    unfold iframeParent at 2 in Hpar. rewrite Hb in Hpar. fold i0 in Hpar.
    rewrite createDetachableIframe_outcome. cbv zeta. fold d i0. rewrite Hdoc, Hpar.
    unfold nodeSatisfies in Hbody. unfold acceptsElementChild. rewrite Hb3.
    destruct (d !! b) as [nb|] eqn:Hnb; [|done].
    rewrite bool_decide_eq_true_2 by eauto.
    unfold hasTag in Hbody. simpl. destruct (nodeKind nb); try done.
    rewrite (bool_decide_eq_false_2 _ Hbi). simpl.
    eexists _, _. split; [done|]. simpl. apply (created_iframe_last doc).
    fold d. rewrite Hb3. eauto.
  - intros i w' Hret Hnone.
    apply createDetachableIframe_Return in Hret as (-> & Hdoc & p & Hp & Hps & Hne & ->).
    fold d in Hdoc, Hp, Hps. fold i0 in Hp, Hps, Hne |- *.
    assert (Hdocs : is_Some (d !! doc)) by (destruct (d !! doc); [eauto | done]).
    pose proof (iframeParent_created d doc (newElement "iframe") Hcl Hdocs) as Hpar.
    fold i0 in Hpar. rewrite Hpar in Hp.
    unfold iframeParent in Hp. rewrite Hnone in Hp.
    exists p. split; [done|]. simpl. by apply (created_iframe_last doc).
Qed.

(** C7, witness: a document with a body, and one without. *)
Lemma createDetachableIframe_parent_witness :
  (∃ i w', createDetachableIframe 0 (initialWorld sampleDom) = (Return i, w')
           ∧ lastChild (hostDom w') 3 = Some i)
  ∧ (∃ p, lastChild bodylessDom 0 = Some p
          ∧ lastChild (hostDom (createDetachableIframe 0 (initialWorld bodylessDom)).2) p
            = Some 3).
Proof.
  split.
  - apply (proj1 (createDetachableIframe_parent 0 (initialWorld sampleDom)
                    (domClosedb_closed sampleDom eq_refl)) 3); reflexivity.
  - apply (proj2 (createDetachableIframe_parent 0 (initialWorld bodylessDom)
                    (domClosedb_closed bodylessDom eq_refl)) 3); reflexivity.
Defined.

(** C7, as stated, fails: with no body the iframe becomes the last child of
    the html element, and the document's last child is still that element. *)
Lemma createDetachableIframe_document_child_counterexample :
  let r := createDetachableIframe 0 (initialWorld bodylessDom) in
  body bodylessDom 0 = None
  ∧ r.1 = Return 3
  ∧ childrenOf (hostDom r.2) 0 = [1]
  ∧ lastChild (hostDom r.2) 0 ≠ Some 3
  ∧ lastChild (hostDom r.2) 1 = Some 3.
Proof. vm_compute. repeat split; congruence. Qed.

(** C10: in a closed host DOM, whatever the outcome of
    [createDetachableIframe], the mutations it performed are an initial
    segment of: create, set display, set sandbox, append; and in every
    intermediate state (the replay of any number of them) the new element,
    if it is a descendant of any node, carries the sandbox attribute
    'allow-same-origin allow-scripts' and display none. *)
Theorem createDetachableIframe_sandboxed_before_attached doc w r w' :
  domClosed (hostDom w) →
  createDetachableIframe doc w = (r, w') →
  let i := fresh (dom (hostDom w)) in
  ∃ evs, w' = logged evs w
    ∧ (∃ p, evs `prefix_of` iframeEvents doc i p)
    ∧ (∀ j, r = Return j → j = i ∧ ∃ p, evs = iframeEvents doc i p)
    ∧ ∀ k root, isDescendant (replay (take k evs) (hostDom w)) root i →
                sandboxedAndHidden (replay (take k evs) (hostDom w)) i.
Proof.
  intros Hcl Hrun i.
  assert (Hsetup : ∀ k root,
            isDescendant (replay (take k (iframeSetupEvents doc i)) (hostDom w)) root i →
            sandboxedAndHidden (replay (take k (iframeSetupEvents doc i)) (hostDom w)) i).
  { intros k root [fuel Hd]. rewrite descendant_no_child in Hd; [done|].
    intros n. by apply setup_prefix_detached. }
  assert (Hthrow : ∀ e, r = Throw e → w' = logged (iframeSetupEvents doc i) w →
            ∃ evs, w' = logged evs w
              ∧ (∃ p, evs `prefix_of` iframeEvents doc i p)
              ∧ (∀ j, r = Return j → j = i ∧ ∃ p, evs = iframeEvents doc i p)
              ∧ ∀ k root, isDescendant (replay (take k evs) (hostDom w)) root i →
                          sandboxedAndHidden (replay (take k evs) (hostDom w)) i).
  { intros e -> ->. exists (iframeSetupEvents doc i). split; [done|].
    split; [exists 0; by eexists|]. split; [done|]. apply Hsetup. }
  assert (Hnone : ∀ e, r = Throw e → w' = w →
            ∃ evs, w' = logged evs w
              ∧ (∃ p, evs `prefix_of` iframeEvents doc i p)
              ∧ (∀ j, r = Return j → j = i ∧ ∃ p, evs = iframeEvents doc i p)
              ∧ ∀ k root, isDescendant (replay (take k evs) (hostDom w)) root i →
                          sandboxedAndHidden (replay (take k evs) (hostDom w)) i).
  { intros e -> ->. exists []. split; [by rewrite logged_nil|].
    split; [exists 0; by eexists|]. split; [done|].
    intros k root. rewrite take_nil. apply (Hsetup 0 root). }
  rewrite createDetachableIframe_outcome in Hrun. cbv zeta in Hrun. fold i in Hrun.
  destruct (nodeKind <$> hostDom w !! doc) as [[]|];
    try (injection Hrun as <- <-; by eapply Hnone).
  destruct (iframeParent _ doc) as [p|]; [|injection Hrun as <- <-; by eapply Hthrow].
  destruct (bool_decide (is_Some _)); [|injection Hrun as <- <-; by eapply Hthrow].
  destruct (acceptsElementChild _ p && negb (bool_decide (p = i))) eqn:Hacc;
    [|injection Hrun as <- <-; by eapply Hthrow].
  injection Hrun as <- <-.
  assert (Hne : p ≠ i).
  { apply andb_true_iff in Hacc as [_ Hne]. apply negb_true_iff in Hne.
    by apply bool_decide_eq_false_1 in Hne. }
  exists (iframeEvents doc i p). split; [done|]. split; [by exists p|].
  split; [intros j [= <-]; eauto|].
  intros k root Hd. destruct (decide (k ≤ 3)%nat) as [Hk|Hk].
  - unfold iframeEvents in *. rewrite take_app_le in * by done. by apply (Hsetup k root).
  - rewrite take_ge by (simpl; lia). by apply created_iframe_sandboxed.
Qed.

(** C10, witness. *)
Lemma createDetachableIframe_sandboxed_before_attached_witness :
  ∃ evs, (createDetachableIframe 0 (initialWorld sampleDom)).2
         = logged evs (initialWorld sampleDom)
    ∧ (∃ p, evs `prefix_of` iframeEvents 0 4 p)
    ∧ (∀ j, (createDetachableIframe 0 (initialWorld sampleDom)).1 = Return j →
            j = 4 ∧ ∃ p, evs = iframeEvents 0 4 p)
    ∧ ∀ k root, isDescendant (replay (take k evs) sampleDom) root 4 →
                sandboxedAndHidden (replay (take k evs) sampleDom) 4.
Proof.
  apply (createDetachableIframe_sandboxed_before_attached 0 (initialWorld sampleDom)
           _ _ (domClosedb_closed sampleDom eq_refl) eq_refl).
Defined.
(** * Properties of createIframeVirtualEnvironment *)

(** ** Outcome by outcome *)

Ltac world_simpl :=
  cbn [logged defaultGlobalOwnKeys blueDocumentToBlueCreateHooksCallbackMap
       connectorCount hostDom domLog andb].

Section BrowserRealmFacts.
Context {host : Collaborators}.

Lemma contentWindow_outcome i w :
  HTMLIFrameElementProtoContentWindowGetter i w
  = (Return (if nodeSatisfies (hostDom w) browsingContext i
             then VObject (ContentWindow i) else VNull), w).
Proof. reflexivity. Qed.

Lemma finishLifecycle_outcome keep i w :
  finishLifecycle keep i (VObject (ContentWindow i)) w =
  (Return tt,
   logged (if keep
           then [EvDocumentOpen (ContentWindow i); EvDocumentClose (ContentWindow i)]
           else [EvRemove i]) w).
Proof.
  unfold finishLifecycle, DocumentProtoOpen, DocumentProtoClose, ElementProtoRemove.
  destruct keep; [|apply emit_logged].
  by rewrite bind_unfold, !emit_logged, logged_app.
Qed.

Lemma createIframeVirtualEnvironment_outcome g opts w :
  createIframeVirtualEnvironment g opts w =
  if notNonNullObject g
  then (Throw (TypeError "Missing global object virtualization target."), w)
  else
    match getCachedGlobalObjectReferences g with
    | RefsUndefined | RefsNull =>
        (Throw (TypeError "Invalid virtualization target."), w)
    | RefsRecord r =>
        match createDetachableIframe (document r) w with
        | (Throw e, w1) => (Throw e, w1)
        | (Return i, w1) =>
            let o := assignedOptions opts in
            let keep := keepAliveOf o in
            let hosting := nodeSatisfies (hostDom w1) browsingContext i in
            let redWindow := if hosting then VObject (ContentWindow i) else VNull in
            let useDefault := shouldUseDefaultGlobalOwnKeys (globalObjectShape o) in
            let defaults :=
              if useDefault && bool_decide (defaultGlobalOwnKeys w = None)
              then Some (filterWindowKeys (getFilteredGlobalOwnKeys redWindow))
              else defaultGlobalOwnKeys w in
            let cache := blueDocumentToBlueCreateHooksCallbackMap w in
            let built := mkConnector (connectorCount w) g in
            let blue := default built (cache !! document r) in
            let count := if cache !! document r is Some _ then connectorCount w
                         else S (connectorCount w) in
            let keys := if useDefault then default [] defaults
                        else filterWindowKeys
                               (getFilteredGlobalOwnKeys (globalObjectShape o)) in
            let final := if keep
                         then [EvDocumentOpen (ContentWindow i);
                               EvDocumentClose (ContentWindow i)]
                         else [EvRemove i] in
            let written :=
              mkWorld (hostDom w1) (domLog w1) defaults
                (if cache !! document r is Some _ then cache
                 else <[document r := built]> cache) in
            if hosting
            then (Return
                    (mkEnv blue (mkConnector count (VObject (ContentWindow i)))
                       (distortionCallback o) (instrumentation o)
                       (configuredOps g r keys keep (endowments o))),
                  logged final (written (S count)))
            else (Throw (TypeError "Cannot read properties of null"), written count)
        end
    end.
Proof.
  unfold createIframeVirtualEnvironment.
  destruct (notNonNullObject g); [reflexivity|].
  destruct (getCachedGlobalObjectReferences g) as [| |r]; try reflexivity.
  rewrite bind_unfold.
  destruct (createDetachableIframe (document r) w) as [[i|e] w1] eqn:Hc; [|reflexivity].
  apply createDetachableIframe_Return in Hc as (Hi & Hdoc & p & Hp & Hps & Hne & ->).
  rewrite bind_unfold, contentWindow_outcome. cbv beta iota zeta.
  unfold ensureDefaultGlobalOwnKeys, cachedBlueConnector, weakMapGet, weakMapSet,
    createBlueConnector, createRedConnector, newConnector, evalOf,
    selectedGlobalOwnKeys, remapEndowments, configuredOps.
  unfold mbind, M_bind, mret, M_ret, throw. world_simpl.
  destruct (nodeSatisfies _ browsingContext i);
    destruct (shouldUseDefaultGlobalOwnKeys _),
      (bool_decide (defaultGlobalOwnKeys w = None)); world_simpl;
      destruct (blueDocumentToBlueCreateHooksCallbackMap w !! document r); world_simpl;
      try reflexivity;
      rewrite finishLifecycle_outcome;
      destruct (endowments _), globalThisDefined; reflexivity.
Qed.


(** The options as destructured, in terms of what the caller passed. *)
Lemma keepAliveOf_assigned opts :
  keepAliveOf (assignedOptions opts) = true ↔ opts ≫= keepAlive = Some true.
Proof.
  destruct opts as [[? ? ? [[]|] ?]|]; cbn; split; (done || discriminate).
Qed.

Lemma keepAliveOf_decide opts :
  keepAliveOf (assignedOptions opts)
  = if decide (opts ≫= keepAlive = Some true) then true else false.
Proof.
  case_decide as Hk; [by apply keepAliveOf_assigned|].
  apply not_true_is_false. by rewrite keepAliveOf_assigned.
Qed.

Lemma endowments_assigned opts : endowments (assignedOptions opts) = opts ≫= endowments.
Proof. by destruct opts. Qed.

Lemma globalObjectShape_assigned opts :
  globalObjectShape (assignedOptions opts) = from_option globalObjectShape VUndefined opts.
Proof. by destruct opts. Qed.

Lemma notNonNullObject_true v :
  notNonNullObject v = true ↔ typeof v ≠ "object" ∨ v = VNull.
Proof.
  unfold notNonNullObject. rewrite orb_true_iff, negb_true_iff.
  rewrite bool_decide_eq_false, bool_decide_eq_true. done.
Qed.

(** Inversion of a call that returned, through the outcome equation. *)
Ltac call_inversion Hrun g w r i w1 Hg Hr Hc :=
  rewrite createIframeVirtualEnvironment_outcome in Hrun; revert Hrun;
  destruct (notNonNullObject g) eqn:Hg; [discriminate|];
  destruct (getCachedGlobalObjectReferences g) as [| |r] eqn:Hr; try discriminate;
  destruct (createDetachableIframe (document r) w) as [[i|?] w1] eqn:Hc; [|discriminate];
  cbv zeta;
  destruct (nodeSatisfies (hostDom w1) browsingContext i) eqn:Hhost; [|discriminate];
  intros Hrun; injection Hrun as <- <-.


(** ** Surfaces of a configured membrane *)

Lemma elem_of_lazilyBridged k ks ex :
  k ∈ lazilyBridged ks ex ↔ (k ∉ default [] ex) ∧ k ∈ ks.
Proof.
  unfold lazilyBridged. apply (list_elem_of_filter (λ k, k ∉ default [] ex)).
Qed.

Lemma dom_filterEndowments (e : PropertyDescriptorMap) :
  dom (filterEndowments e) = dom e ∖ globalOwnedDescriptorNames.
Proof.
  unfold filterEndowments, removeWindowDescriptors,
    assignFilteredGlobalDescriptorsFromPropertyDescriptorMap.
  rewrite (right_id_L ∅ (∪)). apply dom_filter_L. intros k.
  rewrite elem_of_difference, elem_of_dom. split.
  - intros [[x Hx] Hk]. by exists x.
  - intros (x & Hx & Hk). split; [by exists x | done].
Qed.

Lemma empty_minus (X : gset PropertyKey) : ∅ ∖ X = ∅.
Proof. apply empty_difference_L. Qed.

(** The two surfaces, on the global object, of the configuration a
    successful call applies. *)
Lemma configured_surfaces g (r : CachedBlueReferencesRecord) keys keep
    (endow : option PropertyDescriptorMap) :
  EventTargetProto r ≠ window r →
  ⋃ (lazyNames (window r) <$> configuredOps g r keys keep endow)
  = list_to_set (lazilyBridged keys
                   (if keep then None else Some unforgeablePoisonedWindowKeys))
  ∧ ⋃ (eagerNames (window r) <$> configuredOps g r keys keep endow)
    = from_option dom ∅ endow ∖ globalOwnedDescriptorNames.
Proof.
  intros Hne. unfold configuredOps.
  rewrite !fmap_app, !union_list_app_L.
  cbn [fmap list_fmap union_list foldr lazyNames eagerNames].
  rewrite decide_True by done. rewrite decide_False by done.
  destruct endow as [e|];
    cbn [fmap list_fmap union_list foldr lazyNames eagerNames from_option].
  - rewrite decide_True by done. rewrite dom_filterEndowments.
    by rewrite !(left_id_L (∅ : gset PropertyKey) (∪)),
      !(right_id_L (∅ : gset PropertyKey) (∪)).
  - by rewrite empty_minus, !(left_id_L (∅ : gset PropertyKey) (∪)),
      !(right_id_L (∅ : gset PropertyKey) (∪)).
Qed.

Lemma configured_globalRemap g r keys keep endow a b c d :
  globalRemap (mkEnv a b c d (configuredOps g r keys keep endow))
  = Some (window r, keys, if keep then None else Some unforgeablePoisonedWindowKeys).
Proof. reflexivity. Qed.


(** ** One call, whatever its outcome *)

Lemma call_evolves g opts w :
  evolves w (createIframeVirtualEnvironment g opts w).2.
Proof.
  rewrite createIframeVirtualEnvironment_outcome.
  destruct (notNonNullObject g); [apply evolves_refl|].
  destruct (getCachedGlobalObjectReferences g) as [| |r]; try apply evolves_refl.
  destruct (createDetachableIframe_logged (document r) w) as [evs Hevs].
  destruct (createDetachableIframe (document r) w) as [[i|e] w1];
    simpl in Hevs; subst w1; [|apply evolves_logged].
  cbv zeta.
  assert (Hstate : ∀ (res : Completion VirtualEnvironment) w2 ks,
            (∀ ks0, defaultGlobalOwnKeys w = Some ks0 → ks = Some ks0) →
            defaultGlobalOwnKeys w2 = ks →
            blueDocumentToBlueCreateHooksCallbackMap w2
            = (if blueDocumentToBlueCreateHooksCallbackMap w !! document r is Some _
               then blueDocumentToBlueCreateHooksCallbackMap w
               else <[document r := mkConnector (connectorCount w) g]>
                      (blueDocumentToBlueCreateHooksCallbackMap w)) →
            ((if blueDocumentToBlueCreateHooksCallbackMap w !! document r is Some _
              then connectorCount w else S (connectorCount w)) ≤ connectorCount w2)%nat →
            evolves w (res, w2).2).
  { intros res w2 ks Hks Hd Hmap Hcount. cbn [snd]. split; [|split].
    - intros ks0 Hks0. rewrite Hd. by apply Hks.
    - rewrite Hmap. destruct (_ !! document r) eqn:Hl; [done|]. by apply insert_subseteq.
    - intros Hs. destruct (_ !! document r) eqn:Hl.
      + by apply (cacheSound_hit w).
      + apply (cacheSound_insert w _ (document r) g); [done..|lia]. }
  destruct (nodeSatisfies _ browsingContext i); eapply Hstate; world_simpl;
    try reflexivity; try lia;
    intros ks0 Hks0; rewrite Hks0, bool_decide_eq_false_2 by done;
    by rewrite andb_false_r.
Qed.

Lemma call_caches_connector g opts w env w' doc :
  createIframeVirtualEnvironment g opts w = (Return env, w') →
  resolvedDocument (mkCall g opts) = Some doc →
  blueDocumentToBlueCreateHooksCallbackMap w' !! doc = Some (blueConnector env).
Proof.
  intros Hrun Hdoc. unfold resolvedDocument in Hdoc. cbn [callTarget] in Hdoc.
  call_inversion Hrun g w r i w1 Hg Hr Hc. injection Hdoc as <-.
  cbn [logged blueDocumentToBlueCreateHooksCallbackMap blueConnector].
  destruct (blueDocumentToBlueCreateHooksCallbackMap w !! document r) eqn:Hl; simpl;
    [done | by rewrite lookup_insert_eq].
Qed.

Lemma call_uses_cached_default g opts w env w' :
  createIframeVirtualEnvironment g opts w = (Return env, w') →
  usesDefaultKeys (mkCall g opts) = true →
  ∃ t ks ex, globalRemap env = Some (t, ks, ex) ∧ defaultGlobalOwnKeys w' = Some ks.
Proof.
  intros Hrun Huse. unfold usesDefaultKeys in Huse. cbn [callOptions] in Huse.
  call_inversion Hrun g w r i w1 Hg Hr Hc. rewrite Huse.
  eexists _, _, _. split; [apply configured_globalRemap|].
  cbn [logged defaultGlobalOwnKeys andb]. by destruct (defaultGlobalOwnKeys w).
Qed.

Lemma call_custom_shape_keeps_default g opts w :
  usesDefaultKeys (mkCall g opts) = false →
  defaultGlobalOwnKeys (createIframeVirtualEnvironment g opts w).2
  = defaultGlobalOwnKeys w.
Proof.
  intros Huse. unfold usesDefaultKeys in Huse. cbn [callOptions] in Huse.
  rewrite createIframeVirtualEnvironment_outcome.
  destruct (notNonNullObject g); [done|].
  destruct (getCachedGlobalObjectReferences g) as [| |r]; try done.
  destruct (createDetachableIframe_logged (document r) w) as [evs Hevs].
  destruct (createDetachableIframe (document r) w) as [[i|e] w1];
    simpl in Hevs; subst w1; [|done].
  cbv zeta. rewrite Huse. by destruct (nodeSatisfies _ browsingContext i).
Qed.

(** ** Runs *)

Lemma run_evolves_from cs : ∀ w i res wi,
  runCalls cs w !! i = Some (res, wi) → evolves w wi.
Proof.
  induction cs as [|c cs IH]; intros w i res wi Hi; [done|].
  destruct i as [|i]; simpl in Hi.
  - injection Hi as Hi. pose proof (call_evolves (callTarget c) (callOptions c) w) as He.
    by rewrite Hi in He.
  - eapply evolves_trans; [apply (call_evolves (callTarget c) (callOptions c))|].
    by eapply IH.
Qed.

Lemma run_evolves_between cs : ∀ w (i j : nat) ri wi rj wj,
  (i ≤ j)%nat →
  runCalls cs w !! i = Some (ri, wi) → runCalls cs w !! j = Some (rj, wj) →
  evolves wi wj.
Proof.
  induction cs as [|c cs IH]; intros w i j ri wi rj wj Hij Hi Hj; [done|].
  destruct i as [|i], j as [|j]; simpl in Hi, Hj; try lia.
  - rewrite Hi in Hj. injection Hj as _ <-. apply evolves_refl.
  - injection Hi as Hi. rewrite Hi in Hj. by eapply run_evolves_from.
  - eapply IH; [|done..]. lia.
Qed.

Lemma run_call cs : ∀ w i res wi c,
  runCalls cs w !! i = Some (res, wi) → cs !! i = Some c →
  ∃ wpre, evolves w wpre
          ∧ createIframeVirtualEnvironment (callTarget c) (callOptions c) wpre = (res, wi).
Proof.
  induction cs as [|c0 cs IH]; intros w i res wi c Hi Hc; [done|].
  destruct i as [|i]; simpl in Hi, Hc.
  - injection Hc as ->. injection Hi as Hi. exists w. split; [apply evolves_refl | done].
  - destruct (IH _ _ _ _ _ Hi Hc) as (wpre & He & Hrun). exists wpre. split; [|done].
    eapply evolves_trans; [apply (call_evolves (callTarget c0) (callOptions c0))|done].
Qed.

Lemma cacheSound_initial d : cacheSound (initialWorld d).
Proof. split; intros *; cbn; by rewrite lookup_empty. Qed.
(** ** Guards and options *)

(** C6: when the target is not a non-null object of type 'object', or the
    resolver hands back undefined or null, the call throws a TypeError and
    leaves the world as it found it: no element was created, nothing was
    appended, no module state was written. *)
Theorem createIframeVirtualEnvironment_invalid_target g opts w :
  (typeof g ≠ "object" ∨ g = VNull →
   createIframeVirtualEnvironment g opts w
   = (Throw (TypeError "Missing global object virtualization target."), w))
  ∧ (¬ (typeof g ≠ "object" ∨ g = VNull) →
     getCachedGlobalObjectReferences g = RefsUndefined
     ∨ getCachedGlobalObjectReferences g = RefsNull →
     createIframeVirtualEnvironment g opts w
     = (Throw (TypeError "Invalid virtualization target."), w)).
Proof.
  split.
  - intros Hg%notNonNullObject_true.
    by rewrite createIframeVirtualEnvironment_outcome, Hg.
  - intros Hg Hr. rewrite createIframeVirtualEnvironment_outcome.
    destruct (notNonNullObject g) eqn:Hn; [by apply notNonNullObject_true in Hn|].
    by destruct Hr as [-> | ->].
Qed.

(** C9: a [globalObjectShape] that is not a non-null object of type
    'object' makes the call behave, result and world, exactly as the call
    that omits it; when that call returns, the keys it remapped on the
    global object are the cached default ones. *)
Theorem invalid_shape_as_omitted g o shape w :
  typeof shape ≠ "object" ∨ shape = VNull →
  createIframeVirtualEnvironment g (Some (withGlobalObjectShape shape o)) w
  = createIframeVirtualEnvironment g (Some (withGlobalObjectShape VUndefined o)) w
  ∧ ∀ env w',
      createIframeVirtualEnvironment g (Some (withGlobalObjectShape shape o)) w
      = (Return env, w') →
      ∃ t ks ex, globalRemap env = Some (t, ks, ex)
                 ∧ defaultGlobalOwnKeys w' = Some ks.
Proof.
  intros Hs%notNonNullObject_true. split.
  - rewrite !createIframeVirtualEnvironment_outcome.
    destruct (notNonNullObject g); [done|].
    destruct (getCachedGlobalObjectReferences g) as [| |r]; try done.
    destruct (createDetachableIframe (document r) w) as [[i|e] w1]; [|done].
    change (assignedOptions (Some ?x)) with x.
    cbn [withGlobalObjectShape globalObjectShape keepAliveOf
         keepAlive distortionCallback instrumentation endowments].
    unfold shouldUseDefaultGlobalOwnKeys. by rewrite Hs.
  - intros env w' Hrun. call_inversion Hrun g w r i w1 Hg Hr Hc.
    change (assignedOptions (Some ?x)) with x.
    cbn [withGlobalObjectShape globalObjectShape].
    unfold shouldUseDefaultGlobalOwnKeys. rewrite Hs.
    eexists _, _, _. split; [reflexivity|].
    cbn [logged defaultGlobalOwnKeys andb].
    by destruct (defaultGlobalOwnKeys w).
Qed.

(** C1 (as amended): in a call that returns, the EventTarget prototype
    being an object other than the window and the poisoned keys being
    among the global-object-owned names, the lazy remap of the global
    object is given the key list selected for the call (the cached default
    keys, or the filtered keys of a valid custom shape) and, as its
    exclusion list, the poisoned keys exactly when [keepAlive] is false or
    omitted; a poisoned key is bridged lazily on the global object if and
    only if [keepAlive] is true and the key is in the selected list; and
    the same holds of the whole bridged surface of the global object, so
    that with [keepAlive] false or omitted the poisoned keys are absent
    from it. *)
Theorem poisoned_keys_bridged_when_kept_alive g opts w env w' r :
  createIframeVirtualEnvironment g opts w = (Return env, w') →
  getCachedGlobalObjectReferences g = RefsRecord r →
  EventTargetProto r ≠ window r →
  (∀ k, k ∈ unforgeablePoisonedWindowKeys → k ∈ globalOwnedDescriptorNames) →
  let shape := from_option globalObjectShape VUndefined opts in
  let keys := if notNonNullObject shape
              then default [] (defaultGlobalOwnKeys w')
              else filterWindowKeys (getFilteredGlobalOwnKeys shape) in
  globalRemap env
  = Some (window r, keys,
          if decide (opts ≫= keepAlive = Some true) then None
          else Some unforgeablePoisonedWindowKeys)
  ∧ ∀ k, k ∈ unforgeablePoisonedWindowKeys →
      (k ∈ lazySurface (window r) env ↔ opts ≫= keepAlive = Some true ∧ k ∈ keys)
      ∧ (k ∈ bridgedSurface (window r) env ↔ opts ≫= keepAlive = Some true ∧ k ∈ keys).
Proof.
  intros Hrun Hrefs Hne Howned shape keys. call_inversion Hrun g w r0 i w1 Hg Hr Hc.
  injection Hrefs as ->.
  subst keys shape. world_simpl. rewrite configured_globalRemap.
  unfold shouldUseDefaultGlobalOwnKeys. rewrite globalObjectShape_assigned.
  rewrite keepAliveOf_decide.
  set (ks := if notNonNullObject _ then default [] _ else _).
  split; [by case_decide|]. intros k Hk.
  unfold bridgedSurface, lazySurface, eagerSurface. cbn [envOps].
  destruct (configured_surfaces g r ks
              (if decide (opts ≫= keepAlive = Some true) then true else false)
              (endowments (assignedOptions opts)) Hne) as [Hlazy Heager].
  rewrite Hlazy, Heager.
  rewrite elem_of_union, elem_of_list_to_set, elem_of_lazilyBridged, elem_of_difference.
  assert (Hno : ¬ (k ∈ from_option dom ∅ (endowments (assignedOptions opts))
                   ∧ k ∉ globalOwnedDescriptorNames)).
  { intros [_ Hno]. by apply Hno, Howned. }
  case_decide as Hkeep; simpl.
  - split; [split; [intros [_ ?]; done | intros [_ ?]; split; [apply not_elem_of_nil | done]]|].
    split; [intros [[_ ?] | ?]; done | intros [_ ?]; left; split; [apply not_elem_of_nil | done]].
  - split; [split; [intros [? _]; done | intros [? _]; done]|].
    split; [intros [[? _] | ?]; done | intros [? _]; done].
Qed.


(** C5: in a call that returns, the names installed eagerly on the global
    object are the names of the endowments the caller supplied with the
    global-object-owned names stripped, nothing is installed eagerly
    elsewhere, the names bridged on the global object are the lazily
    bridged ones united with those, and every other primitive applied to
    the membrane, the connectors and the world left behind are those of the
    same call made without endowments. *)
Theorem endowments_stripped_before_remap g opts w env w' r :
  createIframeVirtualEnvironment g opts w = (Return env, w') →
  getCachedGlobalObjectReferences g = RefsRecord r →
  EventTargetProto r ≠ window r →
  let given : gset PropertyKey := from_option dom ∅ (opts ≫= endowments) in
  eagerSurface (window r) env = given ∖ globalOwnedDescriptorNames
  ∧ (∀ t, t ≠ window r → eagerSurface t env = ∅)
  ∧ (∃ keys ex,
       globalRemap env = Some (window r, keys, ex)
       ∧ bridgedSurface (window r) env
         = list_to_set (lazilyBridged keys ex) ∪ (given ∖ globalOwnedDescriptorNames))
  ∧ ∃ env0,
      createIframeVirtualEnvironment g (withEndowments None <$> opts) w
      = (Return env0, w')
      ∧ filter (λ op, isRemapProperties op = false) (envOps env) = envOps env0
      ∧ blueConnector env0 = blueConnector env
      ∧ redConnector env0 = redConnector env.
Proof.
  intros Hrun Hrefs Hne given. pose proof Hrun as Hrun0.
  rewrite createIframeVirtualEnvironment_outcome.
  call_inversion Hrun g w r0 i w1 Hg Hr Hc. injection Hrefs as ->.
  set (o := assignedOptions opts).
  assert (Ho : assignedOptions (withEndowments None <$> opts) = withEndowments None o)
    by by destruct opts.
  rewrite Ho.
  unfold bridgedSurface, lazySurface, eagerSurface. cbn [envOps].
  destruct (configured_surfaces g r
              (if shouldUseDefaultGlobalOwnKeys (globalObjectShape o)
               then default []
                      (if shouldUseDefaultGlobalOwnKeys (globalObjectShape o)
                          && bool_decide (defaultGlobalOwnKeys w = None)
                       then Some (filterWindowKeys
                                    (getFilteredGlobalOwnKeys (VObject (ContentWindow i))))
                       else defaultGlobalOwnKeys w)
               else filterWindowKeys (getFilteredGlobalOwnKeys (globalObjectShape o)))
              (keepAliveOf o) (endowments o) Hne) as [Hlazy Heager].
  assert (Hgiven : from_option dom ∅ (endowments o) = given)
    by (unfold given, o; by rewrite endowments_assigned).
  rewrite Hlazy, Heager, Hgiven.
  split; [done|]. split.
  - intros t Ht. unfold configuredOps.
    rewrite !fmap_app, !union_list_app_L. cbn [fmap list_fmap union_list foldr eagerNames].
    destruct (endowments o); cbn [fmap list_fmap union_list foldr eagerNames];
      [rewrite decide_False by done|]; by rewrite !(left_id_L (∅ : gset PropertyKey) (∪)).
  - split; [eexists _, _; split; [apply configured_globalRemap | done]|].
    eexists. split; [reflexivity|]. cbn [envOps blueConnector redConnector].
    cbn [withEndowments endowments globalObjectShape keepAliveOf keepAlive].
    split; [|done]. unfold configuredOps. rewrite !filter_app.
    by destruct (endowments o).
Qed.

(** C2: in a closed host DOM, a call that returns has performed, after the
    four mutations that created and appended the iframe, exactly one of two
    things.  When the caller did not pass [keepAlive] true (it passed false,
    or no [keepAlive], or no options), the one removal of the iframe, and
    then the iframe is a descendant of no node.  When the caller passed
    [keepAlive] true, one open immediately followed by one close of the
    sandbox document and nothing else, and then the iframe is still a
    descendant of the host document. *)
Theorem container_detached_or_document_cycled g opts w env w' :
  domClosed (hostDom w) →
  createIframeVirtualEnvironment g opts w = (Return env, w') →
  let i := fresh (dom (hostDom w)) in
  ∃ r p,
    getCachedGlobalObjectReferences g = RefsRecord r
    ∧ (opts ≫= keepAlive ≠ Some true →
       domLog w' = domLog w ++ iframeEvents (document r) i p ++ [EvRemove i]
       ∧ hostDom w'
         = applyEvent (EvRemove i) (replay (iframeEvents (document r) i p) (hostDom w))
       ∧ ∀ root, ¬ isDescendant (hostDom w') root i)
    ∧ (opts ≫= keepAlive = Some true →
       domLog w'
       = domLog w ++ iframeEvents (document r) i p
         ++ [EvDocumentOpen (ContentWindow i); EvDocumentClose (ContentWindow i)]
       ∧ hostDom w' = replay (iframeEvents (document r) i p) (hostDom w)
       ∧ isDescendant (hostDom w') (document r) i).
Proof.
  intros Hcl Hrun i. call_inversion Hrun g w r i0 w1 Hg Hr Hc.
  apply createDetachableIframe_Return in Hc as (-> & Hdoc & p & Hp & Hps & Hne & ->).
  fold i in Hp, Hps, Hne |- *. rewrite keepAliveOf_decide.
  exists r, p. split; [done|].
  split; intros Hkeep; [rewrite decide_False by done | rewrite decide_True by done];
    cbn [logged hostDom domLog]; rewrite <- app_assoc; (split; [done|]).
  - split; [done|]. intros root. apply removed_detached.
  - split; [done|]. change (replay [_; _] ?d) with d.
    apply created_iframe_attached; try done.
    destruct (hostDom w !! document r); [eauto | done].
Qed.

(** C3: in any sequence of calls made from the freshly loaded module, two
    calls that return use the same host-side connector if and only if they
    resolve to the same host document; the connector a call used is what
    the weak map holds for its document after that call and after every
    later one, whatever their outcome; and the weak map never holds
    connectors of one identity for two documents. *)
Theorem blue_connector_per_document d cs (i j : nat) ci cj envi wi envj wj di dj :
  runCalls cs (initialWorld d) !! i = Some (Return envi, wi) →
  runCalls cs (initialWorld d) !! j = Some (Return envj, wj) →
  cs !! i = Some ci → cs !! j = Some cj →
  resolvedDocument ci = Some di → resolvedDocument cj = Some dj →
  (di = dj ↔ blueConnector envi = blueConnector envj)
  ∧ (∀ (k : nat) rk wk, (i ≤ k)%nat →
       runCalls cs (initialWorld d) !! k = Some (rk, wk) →
       blueDocumentToBlueCreateHooksCallbackMap wk !! di = Some (blueConnector envi))
  ∧ cacheSound wi.
Proof.
  intros Hi Hj Hci Hcj Hdi Hdj.
  assert (Hmap : ∀ (a : nat) ca enva wa da (k : nat) rk wk,
            runCalls cs (initialWorld d) !! a = Some (Return enva, wa) →
            cs !! a = Some ca → resolvedDocument ca = Some da → (a ≤ k)%nat →
            runCalls cs (initialWorld d) !! k = Some (rk, wk) →
            blueDocumentToBlueCreateHooksCallbackMap wk !! da = Some (blueConnector enva)).
  { intros a ca enva wa da k rk wk Ha Hca Hda Hak Hk.
    destruct (run_call _ _ _ _ _ _ Ha Hca) as (wpre & _ & Hrun).
    destruct ca as [g opts]. pose proof (call_caches_connector _ _ _ _ _ _ Hrun Hda) as Hl.
    destruct (run_evolves_between _ _ _ _ _ _ _ _ Hak Ha Hk) as (_ & Hsub & _).
    by eapply lookup_weaken. }
  assert (Hsound : ∀ (a : nat) ra wa,
            runCalls cs (initialWorld d) !! a = Some (ra, wa) → cacheSound wa).
  { intros a ra wa Ha. destruct (run_evolves_from _ _ _ _ _ Ha) as (_ & _ & Hs).
    apply Hs, cacheSound_initial. }
  split; [|split; [intros k rk wk Hik Hk; by eapply (Hmap i) | by eapply Hsound]].
  destruct (decide (i ≤ j)%nat) as [Hij|Hij].
  - pose proof (Hmap _ _ _ _ _ _ _ _ Hi Hci Hdi Hij Hj) as Hli.
    pose proof (Hmap _ _ _ _ _ _ _ _ Hj Hcj Hdj (le_n j) Hj) as Hlj.
    split.
    + intros ->. rewrite Hli in Hlj. by injection Hlj.
    + intros Heq. destruct (Hsound _ _ _ Hj) as [_ Hinj].
      eapply Hinj; [done..|]. by rewrite Heq.
  - assert (Hji : (j ≤ i)%nat) by lia.
    pose proof (Hmap _ _ _ _ _ _ _ _ Hj Hcj Hdj Hji Hi) as Hlj.
    pose proof (Hmap _ _ _ _ _ _ _ _ Hi Hci Hdi (le_n i) Hi) as Hli.
    split.
    + intros ->. rewrite Hli in Hlj. by injection Hlj.
    + intros Heq. destruct (Hsound _ _ _ Hi) as [_ Hinj].
      eapply Hinj; [done..|]. by rewrite Heq.
Qed.

(** C4: [defaultGlobalOwnKeys], once set, is left as it is by every call,
    whatever its outcome; a call with a custom shape does not touch it; and
    in any sequence of calls made from the freshly loaded module, any two
    calls without a custom shape that return have remapped on the global
    object one and the same key list, which is the value the binding holds
    after each of them. *)
Theorem default_keys_assigned_once d cs :
  (∀ g opts w ks,
     defaultGlobalOwnKeys w = Some ks →
     defaultGlobalOwnKeys (createIframeVirtualEnvironment g opts w).2 = Some ks)
  ∧ (∀ g opts w,
       usesDefaultKeys (mkCall g opts) = false →
       defaultGlobalOwnKeys (createIframeVirtualEnvironment g opts w).2
       = defaultGlobalOwnKeys w)
  ∧ (∀ (i j : nat) ri wi rj wj ks,
       (i ≤ j)%nat →
       runCalls cs (initialWorld d) !! i = Some (ri, wi) →
       runCalls cs (initialWorld d) !! j = Some (rj, wj) →
       defaultGlobalOwnKeys wi = Some ks → defaultGlobalOwnKeys wj = Some ks)
  ∧ (∀ (i j : nat) ci cj envi wi envj wj,
       runCalls cs (initialWorld d) !! i = Some (Return envi, wi) →
       runCalls cs (initialWorld d) !! j = Some (Return envj, wj) →
       cs !! i = Some ci → cs !! j = Some cj →
       usesDefaultKeys ci = true → usesDefaultKeys cj = true →
       ∃ ks ti exi tj exj,
         globalRemap envi = Some (ti, ks, exi)
         ∧ globalRemap envj = Some (tj, ks, exj)
         ∧ defaultGlobalOwnKeys wi = Some ks
         ∧ defaultGlobalOwnKeys wj = Some ks).
Proof.
  split; [|split; [|split]].
  - intros g opts w ks Hks. by apply (call_evolves g opts w).
  - apply call_custom_shape_keeps_default.
  - intros i j ri wi rj wj ks Hij Hi Hj Hks.
    by apply (run_evolves_between _ _ _ _ _ _ _ _ Hij Hi Hj).
  - intros i j ci cj envi wi envj wj Hi Hj Hci Hcj Hui Huj.
    destruct (run_call _ _ _ _ _ _ Hi Hci) as (wprei & _ & Hruni).
    destruct (run_call _ _ _ _ _ _ Hj Hcj) as (wprej & _ & Hrunj).
    destruct ci as [gi oi], cj as [gj oj].
    destruct (call_uses_cached_default _ _ _ _ _ Hruni Hui) as (ti & ksi & exi & Hgi & Hdi).
    destruct (call_uses_cached_default _ _ _ _ _ Hrunj Huj) as (tj & ksj & exj & Hgj & Hdj).
    assert (ksi = ksj) as <-.
    { destruct (decide (i ≤ j)%nat) as [Hij|Hij].
      - destruct (run_evolves_between _ _ _ _ _ _ _ _ Hij Hi Hj) as (Hd & _ & _).
        specialize (Hd _ Hdi). congruence.
      - assert (Hji : (j ≤ i)%nat) by lia.
        destruct (run_evolves_between _ _ _ _ _ _ _ _ Hji Hj Hi) as (Hd & _ & _).
        specialize (Hd _ Hdj). congruence. }
    by eexists _, _, _, _, _.
Qed.
End BrowserRealmFacts.

(** * Concrete runs *)

(** C1, witness: on the sample host, whose poisoned key window is an owned
    name, the default lifecycle and a call that keeps the sandbox alive. *)
Lemma poisoned_keys_bridged_when_kept_alive_witness :
  (∃ env w',
     createIframeVirtualEnvironment (host := sampleHost) (VObject (HostRef 0))
       (Some (sampleOptions false VUndefined)) (initialWorld sampleDom) = (Return env, w')
     ∧ globalRemap env
       = Some (VObject (HostRef 0), [KString "window"; KString "setTimeout"],
               Some [KString "window"])
     ∧ ∀ k, k ∈ [KString "window"] →
         (k ∈ lazySurface (VObject (HostRef 0)) env
          ↔ Some false = Some true ∧ k ∈ [KString "window"; KString "setTimeout"])
         ∧ (k ∈ bridgedSurface (VObject (HostRef 0)) env
            ↔ Some false = Some true ∧ k ∈ [KString "window"; KString "setTimeout"]))
  ∧ ∃ env w',
      createIframeVirtualEnvironment (host := sampleHost) (VObject (HostRef 0))
        (Some (sampleOptions true VUndefined)) (initialWorld sampleDom) = (Return env, w')
      ∧ globalRemap env
        = Some (VObject (HostRef 0), [KString "window"; KString "setTimeout"], None)
      ∧ ∀ k, k ∈ [KString "window"] →
          (k ∈ lazySurface (VObject (HostRef 0)) env
           ↔ Some true = Some true ∧ k ∈ [KString "window"; KString "setTimeout"])
          ∧ (k ∈ bridgedSurface (VObject (HostRef 0)) env
             ↔ Some true = Some true ∧ k ∈ [KString "window"; KString "setTimeout"]).
Proof.
  assert (Howned : ∀ k, k ∈ unforgeablePoisonedWindowKeys (Collaborators := sampleHost) →
                        k ∈ globalOwnedDescriptorNames (Collaborators := sampleHost)).
  { intros k Hk. apply list_elem_of_singleton in Hk as ->.
    match goal with |- ?P => apply (bool_decide_eq_true_1 P) end.
    vm_compute. reflexivity. }
  split.
  - eexists _, _. split; [vm_compute; reflexivity|].
    epose proof (poisoned_keys_bridged_when_kept_alive (host := sampleHost)
                   (VObject (HostRef 0)) (Some (sampleOptions false VUndefined))
                   (initialWorld sampleDom) _ _ (sampleRefs 0 (VObject (HostRef 0))))
      as Hthm.
    match type of Hthm with
    | ?A → _ => assert (Hrun : A) by (vm_compute; reflexivity)
    end.
    assert (Hne : EventTargetProto (sampleRefs 0 (VObject (HostRef 0)))
                  ≠ window (sampleRefs 0 (VObject (HostRef 0)))) by discriminate.
    exact (Hthm Hrun eq_refl Hne Howned).
  - eexists _, _. split; [vm_compute; reflexivity|].
    epose proof (poisoned_keys_bridged_when_kept_alive (host := sampleHost)
                   (VObject (HostRef 0)) (Some (sampleOptions true VUndefined))
                   (initialWorld sampleDom) _ _ (sampleRefs 0 (VObject (HostRef 0))))
      as Hthm.
    match type of Hthm with
    | ?A → _ => assert (Hrun : A) by (vm_compute; reflexivity)
    end.
    assert (Hne : EventTargetProto (sampleRefs 0 (VObject (HostRef 0)))
                  ≠ window (sampleRefs 0 (VObject (HostRef 0)))) by discriminate.
    exact (Hthm Hrun eq_refl Hne Howned).
Defined.

(** C1, as stated, fails: with [keepAlive] true and a custom shape whose
    only key is foo, the poisoned key window is not bridged. *)
Lemma poisoned_key_not_bridged_counterexample :
  ∃ env w',
    createIframeVirtualEnvironment (host := sampleHost) (VObject (HostRef 0))
      (Some (sampleOptions true (VObject (HostRef 7)))) (initialWorld sampleDom)
    = (Return env, w')
    ∧ keepAliveOf (sampleOptions true (VObject (HostRef 7))) = true
    ∧ KString "window" ∈ unforgeablePoisonedWindowKeys (Collaborators := sampleHost)
    ∧ globalRemap env = Some (VObject (HostRef 0), [KString "foo"], None)
    ∧ ¬ (KString "window" ∈ lazySurface (VObject (HostRef 0)) env
         ↔ keepAliveOf (sampleOptions true (VObject (HostRef 7))) = true).
Proof.
  eexists _, _. split; [vm_compute; reflexivity|].
  split; [reflexivity|]. split; [by left|]. split; [reflexivity|].
  intros [_ Hin]. specialize (Hin eq_refl).
  match type of Hin with
  | ?P => assert (Hb : bool_decide P = true) by by apply bool_decide_eq_true_2
  end.
  vm_compute in Hb. discriminate.
Qed.

(** C2, witness: a call without options, which detaches the iframe, and a
    call that keeps the sandbox alive. *)
Lemma container_detached_or_document_cycled_witness :
  (∃ env w',
     createIframeVirtualEnvironment (host := sampleHost) (VObject (HostRef 0))
       None (initialWorld sampleDom) = (Return env, w')
     ∧ ∃ r p,
         getCachedGlobalObjectReferences (Collaborators := sampleHost) (VObject (HostRef 0))
         = RefsRecord r
         ∧ domLog w' = [] ++ iframeEvents (document r) 4 p ++ [EvRemove 4]
         ∧ hostDom w'
           = applyEvent (EvRemove 4) (replay (iframeEvents (document r) 4 p) sampleDom)
         ∧ ∀ root, ¬ isDescendant (hostDom w') root 4)
  ∧ ∃ env w',
      createIframeVirtualEnvironment (host := sampleHost) (VObject (HostRef 0))
        (Some (sampleOptions true VUndefined)) (initialWorld sampleDom) = (Return env, w')
      ∧ ∃ r p,
          getCachedGlobalObjectReferences (Collaborators := sampleHost) (VObject (HostRef 0))
          = RefsRecord r
          ∧ domLog w'
            = [] ++ iframeEvents (document r) 4 p
              ++ [EvDocumentOpen (ContentWindow 4); EvDocumentClose (ContentWindow 4)]
          ∧ hostDom w' = replay (iframeEvents (document r) 4 p) sampleDom
          ∧ isDescendant (hostDom w') (document r) 4.
Proof.
  assert (Hcl : domClosed sampleDom) by (apply domClosedb_closed; vm_compute; reflexivity).
  split.
  - eexists _, _. split; [vm_compute; reflexivity|].
    epose proof (container_detached_or_document_cycled (host := sampleHost)
                   (VObject (HostRef 0)) None (initialWorld sampleDom) _ _ Hcl) as Hthm.
    match type of Hthm with
    | ?A → _ => assert (Hrun : A) by (vm_compute; reflexivity)
    end.
    destruct (Hthm Hrun) as (r & p & Hr & Hdetached & _).
    exists r, p. split; [exact Hr|]. apply Hdetached. discriminate.
  - eexists _, _. split; [vm_compute; reflexivity|].
    epose proof (container_detached_or_document_cycled (host := sampleHost)
                   (VObject (HostRef 0)) (Some (sampleOptions true VUndefined))
                   (initialWorld sampleDom) _ _ Hcl) as Hthm.
    match type of Hthm with
    | ?A → _ => assert (Hrun : A) by (vm_compute; reflexivity)
    end.
    destruct (Hthm Hrun) as (r & p & Hr & _ & Hcycled).
    exists r, p. split; [exact Hr|]. apply Hcycled. reflexivity.
Defined.

(** C3, witness: the first and the third of the sample calls share the
    document and the connector. *)
Lemma blue_connector_per_document_witness :
  ∃ envi wi envj wj,
    runCalls (host := sampleHost) sampleCalls (initialWorld twoDocumentsDom) !! 0
    = Some (Return envi, wi)
    ∧ runCalls (host := sampleHost) sampleCalls (initialWorld twoDocumentsDom) !! 2
      = Some (Return envj, wj)
    ∧ (0 = 0 ↔ blueConnector envi = blueConnector envj)
    ∧ (∀ (k : nat) rk wk, (0 ≤ k)%nat →
         runCalls (host := sampleHost) sampleCalls (initialWorld twoDocumentsDom) !! k
         = Some (rk, wk) →
         blueDocumentToBlueCreateHooksCallbackMap wk !! 0 = Some (blueConnector envi))
    ∧ cacheSound wi.
Proof.
  eexists _, _, _, _. split; [vm_compute; reflexivity|]. split; [vm_compute; reflexivity|].
  eapply (blue_connector_per_document (host := sampleHost) twoDocumentsDom sampleCalls 0 2);
    vm_compute; reflexivity.
Defined.

(** C4, witness: the first and the third of the sample calls use the same
    default keys. *)
Lemma default_keys_assigned_once_witness :
  ∃ envi wi envj wj,
    runCalls (host := sampleHost) sampleCalls (initialWorld twoDocumentsDom) !! 0
    = Some (Return envi, wi)
    ∧ runCalls (host := sampleHost) sampleCalls (initialWorld twoDocumentsDom) !! 2
      = Some (Return envj, wj)
    ∧ ∃ ks ti exi tj exj,
        globalRemap envi = Some (ti, ks, exi)
        ∧ globalRemap envj = Some (tj, ks, exj)
        ∧ defaultGlobalOwnKeys wi = Some ks
        ∧ defaultGlobalOwnKeys wj = Some ks.
Proof.
  eexists _, _, _, _. split; [vm_compute; reflexivity|]. split; [vm_compute; reflexivity|].
  eapply (proj2 (proj2 (proj2 (default_keys_assigned_once (host := sampleHost)
                                 twoDocumentsDom sampleCalls))) 0 2);
    vm_compute; reflexivity.
Defined.

(** C5, witness: endowments foo and document; document is owned. *)
Lemma endowments_stripped_before_remap_witness :
  ∃ env w',
    createIframeVirtualEnvironment (host := sampleHost) (VObject (HostRef 0))
      (Some (sampleOptions false VUndefined)) (initialWorld sampleDom) = (Return env, w')
    ∧ let given : gset PropertyKey :=
        from_option dom ∅ (Some (sampleOptions false VUndefined) ≫= endowments) in
      eagerSurface (VObject (HostRef 0)) env
      = given ∖ globalOwnedDescriptorNames (Collaborators := sampleHost)
      ∧ (∀ t, t ≠ VObject (HostRef 0) → eagerSurface t env = ∅)
      ∧ (∃ keys ex,
           globalRemap env = Some (VObject (HostRef 0), keys, ex)
           ∧ bridgedSurface (VObject (HostRef 0)) env
             = list_to_set (lazilyBridged keys ex)
               ∪ (given ∖ globalOwnedDescriptorNames (Collaborators := sampleHost)))
      ∧ ∃ env0,
          createIframeVirtualEnvironment (host := sampleHost) (VObject (HostRef 0))
            (withEndowments None <$> Some (sampleOptions false VUndefined))
            (initialWorld sampleDom)
          = (Return env0, w')
          ∧ filter (λ op, isRemapProperties op = false) (envOps env) = envOps env0
          ∧ blueConnector env0 = blueConnector env
          ∧ redConnector env0 = redConnector env.
Proof.
  eexists _, _. split; [vm_compute; reflexivity|].
  eapply (endowments_stripped_before_remap (host := sampleHost) (VObject (HostRef 0))
            (Some (sampleOptions false VUndefined)) (initialWorld sampleDom) _ _
            (sampleRefs 0 (VObject (HostRef 0)))).
  - vm_compute; reflexivity.
  - reflexivity.
  - discriminate.
Defined.

(** C6, witness: a string as target, and a window the resolver knows
    nothing of. *)
Lemma createIframeVirtualEnvironment_invalid_target_witness :
  createIframeVirtualEnvironment (host := sampleHost) (VString "window") None
    (initialWorld sampleDom)
  = (Throw (TypeError "Missing global object virtualization target."),
     initialWorld sampleDom)
  ∧ createIframeVirtualEnvironment (host := sampleHost) (VObject (HostRef 2)) None
      (initialWorld sampleDom)
    = (Throw (TypeError "Invalid virtualization target."), initialWorld sampleDom).
Proof.
  split.
  - apply (proj1 (createIframeVirtualEnvironment_invalid_target (host := sampleHost)
                    (VString "window") None (initialWorld sampleDom))).
    left. discriminate.
  - apply (proj2 (createIframeVirtualEnvironment_invalid_target (host := sampleHost)
                    (VObject (HostRef 2)) None (initialWorld sampleDom))).
    + intros [Hn | Hn]; [by apply Hn | discriminate].
    + right. reflexivity.
Defined.



(** C9, witness: a function as shape. *)
Lemma invalid_shape_as_omitted_witness :
  createIframeVirtualEnvironment (host := sampleHost) (VObject (HostRef 0))
    (Some (withGlobalObjectShape (VFunction 3) (sampleOptions false VUndefined)))
    (initialWorld sampleDom)
  = createIframeVirtualEnvironment (host := sampleHost) (VObject (HostRef 0))
      (Some (withGlobalObjectShape VUndefined (sampleOptions false VUndefined)))
      (initialWorld sampleDom)
  ∧ ∀ env w',
      createIframeVirtualEnvironment (host := sampleHost) (VObject (HostRef 0))
        (Some (withGlobalObjectShape (VFunction 3) (sampleOptions false VUndefined)))
        (initialWorld sampleDom)
      = (Return env, w') →
      ∃ t ks ex, globalRemap env = Some (t, ks, ex)
                 ∧ defaultGlobalOwnKeys w' = Some ks.
Proof.
  apply (invalid_shape_as_omitted (host := sampleHost) (VObject (HostRef 0))
           (sampleOptions false VUndefined) (VFunction 3) (initialWorld sampleDom)).
  left. discriminate.
Defined.

(** * Further properties of createDetachableIframe *)

(** ** The DOM a call leaves *)

Lemma withChildren_same (f : list nat → list nat) nd :
  f (childNodes nd) = childNodes nd → withChildren f nd = nd.
Proof. destruct nd. unfold withChildren. simpl. by intros ->. Qed.

Lemma filter_ne_absent (c : nat) (l : list nat) :
  c ∉ l → filter (λ x, x ≠ c) l = l.
Proof.
  induction l as [|a l IH]; [done|]. intros Hc.
  apply not_elem_of_cons in Hc as [Hne Hl].
  rewrite filter_cons_True by done. by rewrite IH.
Qed.

Lemma filter_ne_snoc (c : nat) (l : list nat) :
  c ∉ l → filter (λ x, x ≠ c) (l ++ [c]) = l.
Proof.
  intros Hc. rewrite filter_app, filter_ne_absent by done.
  rewrite filter_cons_False by (intros Hne; by apply Hne).
  by rewrite filter_nil, app_nil_r.
Qed.

Lemma closed_node_not_fresh (d : Dom) n nd :
  domClosed d → d !! n = Some nd → fresh (dom d) ∉ childNodes nd.
Proof.
  intros Hcl Hn Hin. destruct (Hcl n nd _ Hn Hin) as [x Hx].
  by rewrite fresh_unused in Hx.
Qed.

(** Creating, configuring and appending the iframe amounts to two updates
    of a closed DOM. *)
Lemma replay_iframeEvents_closed doc p (d : Dom) :
  domClosed d → p ≠ fresh (dom d) →
  replay (iframeEvents doc (fresh (dom d)) p) d
  = <[fresh (dom d) :=
        iframeNode (nodeSatisfies (replay (iframeEvents doc (fresh (dom d)) p) d)
                      browsingContext (fresh (dom d)))]>
      (alter (withChildren (λ cs, cs ++ [fresh (dom d)])) p d).
Proof.
  intros Hcl Hne. set (i := fresh (dom d)) in *. apply map_eq. intros n.
  destruct (decide (n = i)) as [->|Hn].
  - by rewrite created_iframe_node, lookup_insert_eq.
  - rewrite lookup_insert_ne by done. rewrite replay_iframeEvents.
    cbn [applyEvent]. cbv zeta. rewrite lookup_alter_ne by done. unfold unlink.
    assert (Hkeep : (withChildren (filter (λ c, c ≠ i)) <$> replay (iframeSetupEvents doc i) d)
                    !! n = d !! n).
    { rewrite lookup_fmap, setup_lookup_other by done.
      destruct (d !! n) as [nd|] eqn:Hd; [|done]. cbn. f_equal.
      apply withChildren_same, filter_ne_absent. by apply (closed_node_not_fresh d n). }
    destruct (decide (p = n)) as [->|Hpn].
    + by rewrite !lookup_alter_eq, Hkeep.
    + by rewrite !lookup_alter_ne, Hkeep.
Qed.

(** Removing the iframe undoes the append. *)
Lemma remove_appended_iframe p (d : Dom) hosting :
  domClosed d → p ≠ fresh (dom d) →
  applyEvent (EvRemove (fresh (dom d)))
    (<[fresh (dom d) := iframeNode hosting]>
       (alter (withChildren (λ cs, cs ++ [fresh (dom d)])) p d))
  = <[fresh (dom d) := iframeNode false]> d.
Proof.
  intros Hcl Hne. set (i := fresh (dom d)) in *. apply map_eq. intros n.
  cbn [applyEvent]. unfold unlink.
  destruct (decide (n = i)) as [->|Hn].
  - by rewrite lookup_alter_eq, lookup_fmap, !lookup_insert_eq.
  - rewrite lookup_alter_ne by done. rewrite lookup_fmap.
    rewrite !lookup_insert_ne by done.
    destruct (decide (p = n)) as [->|Hpn].
    + rewrite lookup_alter_eq. destruct (d !! n) as [nd|] eqn:Hd; [|done].
      pose proof (closed_node_not_fresh d n nd Hcl Hd) as Hi. fold i in Hi.
      cbn. f_equal. destruct nd. unfold withChildren. simpl in *.
      by rewrite filter_ne_snoc.
    + rewrite lookup_alter_ne by done. destruct (d !! n) as [nd|] eqn:Hd; [|done].
      cbn. f_equal. apply withChildren_same, filter_ne_absent.
      by apply (closed_node_not_fresh d n).
Qed.

(** ** Closed DOMs stay closed *)

Lemma domClosed_children (d : Dom) :
  domClosed d ↔ ∀ n c, c ∈ childrenOf d n → is_Some (d !! c).
Proof.
  unfold domClosed, childrenOf. split.
  - intros Hcl n c Hc. destruct (d !! n) as [nd|] eqn:Hn; [by eapply Hcl|].
    by apply elem_of_nil in Hc.
  - intros Hcl n nd c Hn Hc. apply (Hcl n). by rewrite Hn.
Qed.

Lemma applyEvent_dom ev (d : Dom) :
  dom (applyEvent ev d)
  = match ev with
    | EvCreateElement _ _ n => {[ n ]} ∪ dom d
    | _ => dom d
    end.
Proof.
  destruct ev; cbn [applyEvent]; unfold unlink;
    by rewrite ?dom_alter_L, ?dom_insert_L, ?dom_fmap_L.
Qed.

Lemma applyEvent_keeps_nodes ev (d : Dom) n :
  is_Some (d !! n) → is_Some (applyEvent ev d !! n).
Proof.
  rewrite <- !elem_of_dom, applyEvent_dom. intros Hn.
  destruct ev; try done. apply elem_of_union. by right.
Qed.

Lemma replay_keeps_nodes evs : ∀ (d : Dom) n,
  is_Some (d !! n) → is_Some (replay evs d !! n).
Proof.
  induction evs as [|ev evs IH]; intros d n Hn; [done|].
  apply IH. by apply applyEvent_keeps_nodes.
Qed.

Lemma elem_of_filter_ne (c x : nat) (l : list nat) :
  x ∈ filter (λ y, y ≠ c) l → x ∈ l.
Proof. rewrite list_elem_of_filter. by intros [_ ?]. Qed.

(** A mutation keeps the DOM closed, provided an appended child is a node. *)
Lemma domClosed_applyEvent ev (d : Dom) :
  domClosed d →
  (∀ p c, ev = EvAppendChild p c → is_Some (d !! c)) →
  domClosed (applyEvent ev d).
Proof.
  rewrite !domClosed_children. intros Hcl Hchild n c Hc.
  destruct ev as [doc tag i|i prop v|i name v|p ch|i|cw|cw].
  - cbn [applyEvent] in *. rewrite childrenOf_insert in Hc.
    destruct (decide (n = i)); [by apply elem_of_nil in Hc|].
    apply (applyEvent_keeps_nodes (EvCreateElement doc tag i)). by eapply Hcl.
  - apply applyEvent_keeps_nodes. cbn [applyEvent] in Hc.
    rewrite childrenOf_alter in Hc by done. by eapply Hcl.
  - apply applyEvent_keeps_nodes. cbn [applyEvent] in Hc.
    rewrite childrenOf_alter in Hc by done. by eapply Hcl.
  - apply applyEvent_keeps_nodes. rewrite childrenOf_appended in Hc.
    destruct (decide (n = p)) as [->|].
    + destruct (decide (is_Some (d !! p))); [|by apply elem_of_nil in Hc].
      apply elem_of_app in Hc as [Hc|Hc].
      * apply elem_of_filter_ne in Hc. by eapply Hcl.
      * apply list_elem_of_singleton in Hc as ->. by eapply Hchild.
    + apply elem_of_filter_ne in Hc. by eapply Hcl.
  - apply applyEvent_keeps_nodes. rewrite childrenOf_removed in Hc.
    apply elem_of_filter_ne in Hc. by eapply Hcl.
  - by eapply Hcl.
  - by eapply Hcl.
Qed.

Lemma domClosed_setup doc i (d : Dom) :
  domClosed d → domClosed (replay (iframeSetupEvents doc i) d).
Proof.
  intros Hcl. unfold iframeSetupEvents, replay. cbn [foldl].
  repeat (apply domClosed_applyEvent; [|intros ? ? [=]]). done.
Qed.

Lemma domClosed_iframeEvents doc i p (d : Dom) :
  domClosed d → domClosed (replay (iframeEvents doc i p) d).
Proof.
  intros Hcl. rewrite replay_iframeEvents. apply domClosed_applyEvent.
  - by apply domClosed_setup.
  - intros ? ? [= _ <-]. rewrite setup_lookup_iframe. eauto.
Qed.

(** ** Outcomes read off the DOM the call starts from *)

Lemma iframeParent_is_node (d : Dom) doc p :
  domClosed d → iframeParent d doc = Some p → is_Some (d !! p).
Proof.
  rewrite domClosed_children. intros Hcl Hp.
  apply iframeParent_reachable in Hp as [Hin | (h & _ & Hin)]; by eapply Hcl.
Qed.

Lemma existsb_ext_elem {A} (f g : A → bool) (l : list A) :
  (∀ x, x ∈ l → f x = g x) → existsb f l = existsb g l.
Proof.
  induction l as [|a l IH]; intros Hfg; [done|]. simpl.
  rewrite (Hfg a) by by left. rewrite IH; [done|]. intros x Hx. apply Hfg. by right.
Qed.

Lemma acceptsElementChild_setup doc (d : Dom) p :
  domClosed d → is_Some (d !! p) →
  acceptsElementChild (replay (iframeSetupEvents doc (fresh (dom d))) d) p
  = acceptsElementChild d p.
Proof.
  intros Hcl Hp. set (i := fresh (dom d)).
  assert (Hpi : p ≠ i).
  { intros ->. destruct Hp as [x Hx]. unfold i in Hx. by rewrite fresh_unused in Hx. }
  unfold acceptsElementChild. rewrite setup_lookup_other by done.
  rewrite childrenOf_setup, decide_False by done.
  destruct (nodeKind <$> d !! p) as [[]|]; try done. f_equal.
  apply existsb_ext_elem. intros c Hc. unfold nodeSatisfies.
  rewrite setup_lookup_other; [done|]. by apply (closed_child_not_fresh d p).
Qed.

(** The outcome of [createDetachableIframe], read off the DOM it starts
    from. *)
Lemma createDetachableIframe_classified doc w :
  domClosed (hostDom w) →
  nodeKind <$> hostDom w !! doc = Some DocumentNode →
  let i := fresh (dom (hostDom w)) in
  createDetachableIframe doc w =
  match iframeParent (hostDom w) doc with
  | Some p =>
      if acceptsElementChild (hostDom w) p
      then (Return i, logged (iframeEvents doc i p) w)
      else (Throw HierarchyRequestError, logged (iframeSetupEvents doc i) w)
  | None => (Throw illegalInvocation, logged (iframeSetupEvents doc i) w)
  end.
Proof.
  intros Hcl Hdoc i. rewrite createDetachableIframe_outcome. cbv zeta. rewrite Hdoc.
  assert (Hdocs : is_Some (hostDom w !! doc)) by (destruct (hostDom w !! doc); [eauto|done]).
  rewrite iframeParent_created by done.
  destruct (iframeParent (hostDom w) doc) as [p|] eqn:Hp; [|done].
  pose proof (iframeParent_is_node _ _ _ Hcl Hp) as Hps.
  assert (Hpi : p ≠ i).
  { intros ->. destruct Hps as [x Hx]. unfold i in Hx. by rewrite fresh_unused in Hx. }
  rewrite bool_decide_eq_true_2 by (rewrite setup_lookup_other by done; done).
  rewrite acceptsElementChild_setup by done.
  rewrite (bool_decide_eq_false_2 _ Hpi). by rewrite andb_true_r.
Qed.

(** The three setup mutations add the detached iframe and touch nothing
    else. *)
Lemma replay_setup_insert doc i (d : Dom) :
  replay (iframeSetupEvents doc i) d = <[i := iframeNode false]> d.
Proof.
  apply map_eq. intros n. destruct (decide (n = i)) as [->|Hn].
  - by rewrite setup_lookup_iframe, lookup_insert_eq.
  - by rewrite setup_lookup_other, lookup_insert_ne.
Qed.



Lemma createDetachableIframe_Throw doc w e w' :
  createDetachableIframe doc w = (Throw e, w') →
  w' = w ∨ w' = logged (iframeSetupEvents doc (fresh (dom (hostDom w)))) w.
Proof.
  rewrite createDetachableIframe_outcome. cbv zeta.
  destruct (nodeKind <$> hostDom w !! doc) as [[]|]; try (intros [= _ <-]; by left).
  destruct (iframeParent _ doc) as [p|]; [|intros [= _ <-]; by right].
  destruct (bool_decide (is_Some _)); [|intros [= _ <-]; by right].
  destruct (acceptsElementChild _ p && negb (bool_decide (p = _)));
    [discriminate | intros [= _ <-]; by right].
Qed.


(** ** Browsing contexts *)

Lemma descendant_mono (d : Dom) target : ∀ (f f' : nat) root,
  (f ≤ f')%nat → descendant f d root target = true → descendant f' d root target = true.
Proof.
  induction f as [|f IH]; intros f' root Hle Hd; [done|].
  destruct f' as [|f']; [lia|]. simpl in *.
  apply existsb_exists in Hd as (c & Hc & Hor). apply existsb_exists. exists c.
  split; [done|]. apply orb_true_iff in Hor as [Heq | Hd]; [by rewrite Heq|].
  rewrite (IH f' c); [apply orb_true_r | lia | done].
Qed.

(** The descendants of a node are read off the child lists. *)
Lemma descendant_ext (d1 d2 : Dom) target :
  (∀ n, childrenOf d1 n = childrenOf d2 n) →
  ∀ f root, descendant f d1 root target = descendant f d2 root target.
Proof.
  intros Hch f. induction f as [|f IH]; intros root; [done|]. simpl.
  rewrite Hch. apply existsb_ext_elem. intros c _. by rewrite IH.
Qed.

Lemma size_two (d : Dom) a b :
  a ≠ b → is_Some (d !! a) → is_Some (d !! b) → (2 ≤ size d)%nat.
Proof.
  intros Hne Ha%elem_of_dom Hb%elem_of_dom. rewrite <- (size_dom d).
  assert (Hsub : ({[a]} ∪ {[b]} : gset nat) ⊆ dom d).
  { intros x [->%elem_of_singleton | ->%elem_of_singleton]%elem_of_union; done. }
  apply subseteq_size in Hsub. rewrite size_union, !size_singleton in Hsub; [done|].
  intros x ->%elem_of_singleton Hb'%elem_of_singleton. done.
Qed.

Lemma inBrowsingContext_intro (d : Dom) doc nd n (f : nat) :
  d !! doc = Some nd → nodeKind nd = DocumentNode → browsingContext nd = true →
  descendant f d doc n = true → (f ≤ size d)%nat →
  inBrowsingContext d n = true.
Proof.
  intros Hdoc Hkind Hbc Hd Hf. unfold inBrowsingContext. apply existsb_exists.
  exists (doc, nd). split; [by apply list_elem_of_In, elem_of_map_to_list|].
  rewrite Hkind, Hbc. by apply (descendant_mono d n f).
Qed.

(** Appending a child leaves the kind and the browsing context of every
    node but the child as they were. *)
Lemma appended_parent_lookup (f : list nat → list nat) (d : Dom) p c n :
  (λ nd, (nodeKind nd, browsingContext nd)) <$> alter (withChildren f) p (unlink c d) !! n
  = (λ nd, (nodeKind nd, browsingContext nd)) <$> d !! n.
Proof.
  unfold unlink. destruct (decide (p = n)) as [->|Hne].
  - rewrite lookup_alter_eq, lookup_fmap. by destruct (d !! n).
  - rewrite lookup_alter_ne, lookup_fmap by done. by destruct (d !! n).
Qed.

(** In a closed DOM, the iframe appended under a document that has a
    browsing context hosts one. *)
Lemma created_iframe_hosting doc p (d : Dom) nd :
  domClosed d →
  d !! doc = Some nd → nodeKind nd = DocumentNode → browsingContext nd = true →
  iframeParent d doc = Some p →
  nodeSatisfies (replay (iframeEvents doc (fresh (dom d)) p) d) browsingContext
                (fresh (dom d)) = true.
Proof.
  intros Hcl Hdoc Hkind Hbc Hp. set (i := fresh (dom d)).
  pose proof (iframeParent_is_node _ _ _ Hcl Hp) as Hps.
  assert (Hpi : p ≠ i).
  { intros ->. destruct Hps as [x Hx]. unfold i in Hx. by rewrite fresh_unused in Hx. }
  assert (Hdi : doc ≠ i).
  { intros ->. unfold i in Hdoc. by rewrite fresh_unused in Hdoc. }
  set (d4 := replay (iframeEvents doc i p) d).
  assert (Hi : i ∈ childrenOf d4 p).
  { apply last_Some_elem_of, created_iframe_last. by rewrite setup_lookup_other. }
  assert (Hchain : ∃ f : nat, (f ≤ S (size d))%nat ∧ descendant f d4 doc i = true).
  { destruct (decide (p = doc)) as [->|Hpd].
    - exists 1. split; [lia|]. by apply descendant_child.
    - pose proof (size_two d doc p (λ H, Hpd (eq_sym H)) (mk_is_Some _ _ Hdoc) Hps) as Hsz.
      apply iframeParent_reachable in Hp as [Hin | (h & Hh & Hin)].
      + exists 2. split; [lia|]. eapply descendant_step; [|by apply descendant_child].
        by apply created_iframe_keeps_closed_children.
      + exists 3. split; [lia|].
        eapply descendant_step; [by apply created_iframe_keeps_closed_children|].
        eapply descendant_step; [|by apply descendant_child].
        by apply created_iframe_keeps_closed_children. }
  destruct Hchain as (f & Hf & Hd).
  unfold nodeSatisfies. fold d4. unfold d4 at 1. rewrite replay_iframeEvents.
  rewrite (appended_lookup_child _ _ _ _ Hpi (setup_lookup_iframe doc i d)).
  cbn [withBrowsingContext withChildren withAttribute withStyle newElement browsingContext
       nodeKind hasTag]. rewrite bool_decide_eq_true_2 by by left.
  set (d' := alter _ p _).
  pose proof (appended_parent_lookup (λ cs, cs ++ [i]) (replay (iframeSetupEvents doc i) d)
                p i doc) as Hlook.
  fold d' in Hlook. rewrite setup_lookup_other, Hdoc in Hlook by done.
  destruct (d' !! doc) as [nd'|] eqn:Hdoc'; [|done]. injection Hlook as Hk Hb.
  apply (inBrowsingContext_intro d' doc nd' i f); [done | congruence | congruence | |].
  - rewrite (descendant_ext d' d4); [done|]. intros n. unfold d4.
    rewrite replay_iframeEvents. cbn [applyEvent]. cbv zeta. fold d'.
    by rewrite childrenOf_alter.
  - assert (Hsize : size d' = S (size d)); [|lia].
    rewrite <- !size_dom. unfold d', unlink.
    rewrite dom_alter_L, dom_fmap_L, replay_setup_insert, dom_insert_L.
    rewrite size_union, size_singleton; [done|].
    intros x ->%elem_of_singleton Hx. by apply (is_fresh (dom d)).
Qed.

(** ** Outcomes and footprint *)

(** X5: in a closed host DOM, [createDetachableIframe] throws a TypeError
    and changes nothing when its argument is not a document; on a document
    it throws a TypeError when there is neither a body nor a last child,
    throws a HierarchyRequestError when the node [body ?? lastChild] yields
    cannot take an element child, and returns the new iframe otherwise; when
    it throws on a document, only the three setup mutations were
    performed. *)
Theorem createDetachableIframe_returns_or_throws doc w :
  domClosed (hostDom w) →
  let d := hostDom w in
  let i := fresh (dom d) in
  (nodeKind <$> d !! doc ≠ Some DocumentNode →
   createDetachableIframe doc w = (Throw illegalInvocation, w))
  ∧ (nodeKind <$> d !! doc = Some DocumentNode →
     (iframeParent d doc = None →
      createDetachableIframe doc w
      = (Throw illegalInvocation, logged (iframeSetupEvents doc i) w))
     ∧ (∀ p, iframeParent d doc = Some p → acceptsElementChild d p = false →
             createDetachableIframe doc w
             = (Throw HierarchyRequestError, logged (iframeSetupEvents doc i) w))
     ∧ (∀ p, iframeParent d doc = Some p → acceptsElementChild d p = true →
             createDetachableIframe doc w
             = (Return i, logged (iframeEvents doc i p) w))).
Proof.
  intros Hcl d i. split.
  - intros Hdoc. rewrite createDetachableIframe_outcome. cbv zeta. fold d.
    by destruct (nodeKind <$> d !! doc) as [[]|].
  - intros Hdoc. pose proof (createDetachableIframe_classified doc w Hcl Hdoc) as Hc.
    cbv zeta in Hc. fold d i in Hc. rewrite Hc.
    split; [by intros ->|]. split; by intros p -> ->.
Qed.

(** X7: in a closed host DOM, a call of [createDetachableIframe] that returns
    leaves the DOM it found with exactly two changes: the new node, under
    an identity no node had, an iframe with the one style declaration
    display none and the two attributes sandbox and style (the text of that
    declaration), which hosts a browsing context when the document has
    one; and that identity added at the end of the child list of the
    parent.  It logs the four mutations and writes no module state. *)
Theorem createDetachableIframe_footprint doc w i w' :
  domClosed (hostDom w) →
  createDetachableIframe doc w = (Return i, w') →
  ∃ p hosting,
    iframeParent (hostDom w) doc = Some p
    ∧ hostDom w !! i = None
    ∧ hostDom w'
      = <[i := iframeNode hosting]>
          (alter (withChildren (λ cs, cs ++ [i])) p (hostDom w))
    ∧ (browsingContext <$> hostDom w !! doc = Some true → hosting = true)
    ∧ domLog w' = domLog w ++ iframeEvents doc i p
    ∧ defaultGlobalOwnKeys w' = defaultGlobalOwnKeys w
    ∧ blueDocumentToBlueCreateHooksCallbackMap w' = blueDocumentToBlueCreateHooksCallbackMap w
    ∧ connectorCount w' = connectorCount w.
Proof.
  intros Hcl Hrun.
  apply createDetachableIframe_Return in Hrun as (-> & Hdoc & p & Hp & Hps & Hne & ->).
  assert (Hdocs : is_Some (hostDom w !! doc)) by (destruct (hostDom w !! doc); [eauto|done]).
  rewrite iframeParent_created in Hp by done.
  eexists p, _. split; [done|]. split; [apply fresh_unused|].
  split; [cbn [logged hostDom]; by apply replay_iframeEvents_closed|].
  split; [|done]. intros Hactive.
  destruct (hostDom w !! doc) as [nd|] eqn:Hnd; [|done].
  injection Hdoc as Hkind. injection Hactive as Hbc.
  by apply (created_iframe_hosting doc p (hostDom w) nd).
Qed.

(** * Further properties of createIframeVirtualEnvironment *)

Section BrowserRealmMore.
Context {host : Collaborators}.

(** ** One call *)

(** A call that returns, through the outcome equation. *)
Lemma call_Return g opts w env w' :
  createIframeVirtualEnvironment g opts w = (Return env, w') →
  ∃ r p,
    let o := assignedOptions opts in
    let i := fresh (dom (hostDom w)) in
    let useDefault := shouldUseDefaultGlobalOwnKeys (globalObjectShape o) in
    let cache := blueDocumentToBlueCreateHooksCallbackMap w in
    let count := if cache !! document r is Some _ then connectorCount w
                 else S (connectorCount w) in
    notNonNullObject g = false
    ∧ getCachedGlobalObjectReferences g = RefsRecord r
    ∧ createDetachableIframe (document r) w
      = (Return i, logged (iframeEvents (document r) i p) w)
    ∧ p ≠ i
    ∧ blueConnector env
      = default (mkConnector (connectorCount w) g) (cache !! document r)
    ∧ redConnector env = mkConnector count (VObject (ContentWindow i))
    ∧ envDistortionCallback env = distortionCallback o
    ∧ envInstrumentation env = instrumentation o
    ∧ (∃ keys, envOps env = configuredOps g r keys (keepAliveOf o) (endowments o))
    ∧ hostDom w'
      = replay (if keepAliveOf o
                then [EvDocumentOpen (ContentWindow i); EvDocumentClose (ContentWindow i)]
                else [EvRemove i])
               (replay (iframeEvents (document r) i p) (hostDom w))
    ∧ connectorCount w' = S count
    ∧ nodeSatisfies (replay (iframeEvents (document r) i p) (hostDom w))
                    browsingContext i = true.
Proof.
  intros Hrun. rewrite createIframeVirtualEnvironment_outcome in Hrun. revert Hrun.
  destruct (notNonNullObject g) eqn:Hg; [discriminate|].
  destruct (getCachedGlobalObjectReferences g) as [| |r] eqn:Hr; try discriminate.
  destruct (createDetachableIframe (document r) w) as [[i|?] w1] eqn:Hc; [|discriminate].
  cbv zeta.
  destruct (nodeSatisfies (hostDom w1) browsingContext i) eqn:Hhost; [|discriminate].
  intros [= <- <-].
  destruct (createDetachableIframe_Return _ _ _ _ Hc) as (Hi & _ & p & _ & _ & Hne & Hw).
  subst i w1. exists r, p. cbv zeta. repeat (split; [done|]).
  split; [by eexists|]. done.
Qed.

(** A call that throws: in a guard, in [createDetachableIframe], or on
    reading [eval] off a null content window. *)
Lemma call_Throw g opts w e w' :
  createIframeVirtualEnvironment g opts w = (Throw e, w') →
  w' = w
  ∨ (∃ doc, w' = logged (iframeSetupEvents doc (fresh (dom (hostDom w)))) w)
  ∨ ∃ r p,
      createDetachableIframe (document r) w
      = (Return (fresh (dom (hostDom w))),
         logged (iframeEvents (document r) (fresh (dom (hostDom w))) p) w)
      ∧ nodeSatisfies
          (replay (iframeEvents (document r) (fresh (dom (hostDom w))) p) (hostDom w))
          browsingContext (fresh (dom (hostDom w))) = false
      ∧ hostDom w'
        = replay (iframeEvents (document r) (fresh (dom (hostDom w))) p) (hostDom w).
Proof.
  intros Hrun. rewrite createIframeVirtualEnvironment_outcome in Hrun. revert Hrun.
  destruct (notNonNullObject g); [intros [= _ <-]; by left|].
  destruct (getCachedGlobalObjectReferences g) as [| |r];
    try (intros [= _ <-]; by left).
  destruct (createDetachableIframe (document r) w) as [[i|e0] w1] eqn:Hc.
  - cbv zeta.
    destruct (nodeSatisfies (hostDom w1) browsingContext i) eqn:Hhost; [discriminate|].
    intros [= _ <-]. right. right.
    destruct (createDetachableIframe_Return _ _ _ _ Hc) as (Hi & _ & p & _ & _ & _ & Hw).
    subst i w1. by exists r, p.
  - intros [= _ <-]. apply createDetachableIframe_Throw in Hc as [-> | ->]; [by left|].
    right. left. by eexists.
Qed.

(** What a returned [createDetachableIframe] tells, in a closed DOM. *)
Lemma createDetachableIframe_appended doc w i p :
  domClosed (hostDom w) →
  createDetachableIframe doc w = (Return i, logged (iframeEvents doc i p) w) →
  i = fresh (dom (hostDom w))
  ∧ nodeKind <$> hostDom w !! doc = Some DocumentNode
  ∧ iframeParent (hostDom w) doc = Some p
  ∧ p ≠ i.
Proof.
  intros Hcl Hc.
  apply createDetachableIframe_Return in Hc as (-> & Hdoc & p' & Hp & _ & Hne & Hw).
  assert (p' = p) as ->.
  { apply (f_equal domLog) in Hw. cbn [logged domLog] in Hw.
    apply app_inv_head in Hw. by injection Hw. }
  assert (Hdocs : is_Some (hostDom w !! doc)) by (destruct (hostDom w !! doc); [eauto|done]).
  by rewrite iframeParent_created in Hp.
Qed.




(** X1: in a closed host DOM, a call that returns leaves the DOM it found
    plus one node under a new identity.  When the caller did not pass
    [keepAlive] true, that node is the detached iframe, hosting no browsing
    context, and every node that existed is exactly as it was: the append
    has been undone.  When the caller passed [keepAlive] true, it is the
    iframe hosting its browsing context, and the only other change is its
    identity at the end of the child list of the parent [body ?? lastChild]
    yields. *)
Theorem returning_call_footprint g opts w env w' :
  domClosed (hostDom w) →
  createIframeVirtualEnvironment g opts w = (Return env, w') →
  let d := hostDom w in
  let i := fresh (dom d) in
  ∃ r p,
    getCachedGlobalObjectReferences g = RefsRecord r
    ∧ iframeParent d (document r) = Some p
    ∧ d !! i = None
    ∧ hostDom w'
      = if decide (opts ≫= keepAlive = Some true)
        then <[i := iframeNode true]> (alter (withChildren (λ cs, cs ++ [i])) p d)
        else <[i := iframeNode false]> d.
Proof.
  intros Hcl Hrun d i. subst d i.
  destruct (call_Return _ _ _ _ _ Hrun)
    as (r & p & _ & Hr & Hc & Hne & _ & _ & _ & _ & _ & Hdom & _ & Hhost).
  apply createDetachableIframe_appended in Hc as (_ & _ & Hp & _); [|done].
  exists r, p. split; [done|]. split; [done|]. split; [apply fresh_unused|].
  rewrite Hdom, keepAliveOf_decide. rewrite replay_iframeEvents_closed, Hhost by done.
  case_decide; [done|]. by apply remove_appended_iframe.
Qed.

Lemma call_domClosed g opts w :
  domClosed (hostDom w) →
  domClosed (hostDom (createIframeVirtualEnvironment g opts w).2).
Proof.
  intros Hcl.
  destruct (createIframeVirtualEnvironment g opts w) as [[env|e] w'] eqn:Hrun; cbn [snd].
  - destruct (call_Return _ _ _ _ _ Hrun)
      as (r & p & _ & _ & _ & _ & _ & _ & _ & _ & _ & Hdom & _).
    rewrite Hdom. pose proof (domClosed_iframeEvents (document r)
      (fresh (dom (hostDom w))) p _ Hcl) as Hcl4.
    destruct (keepAliveOf (assignedOptions opts)); [done|].
    apply (domClosed_applyEvent (EvRemove _)); [done | by intros ? ? [=]].
  - apply call_Throw in Hrun as [-> | [[doc ->] | (r & p & _ & _ & ->)]]; [done| |].
    + by apply domClosed_setup.
    + by apply domClosed_iframeEvents.
Qed.


(** X14: when the iframe [createDetachableIframe] returned hosts no
    browsing context, so that its [contentWindow] is null, the call throws,
    whatever its options, and leaves the DOM and the log of mutations as
    [createDetachableIframe] left them: the iframe stays appended, its
    removal is never reached. *)
Theorem null_content_window_throws g opts w r i w1 :
  typeof g = "object" → g ≠ VNull →
  getCachedGlobalObjectReferences g = RefsRecord r →
  createDetachableIframe (document r) w = (Return i, w1) →
  (HTMLIFrameElementProtoContentWindowGetter i w1).1 = Return VNull →
  ∃ e w',
    createIframeVirtualEnvironment g opts w = (Throw e, w')
    ∧ hostDom w' = hostDom w1
    ∧ domLog w' = domLog w1.
Proof.
  intros Hty Hnull Hr Hc Hwin.
  assert (Hg : notNonNullObject g = false).
  { apply not_true_is_false. rewrite notNonNullObject_true. by intros [? | ?]. }
  rewrite contentWindow_outcome in Hwin. cbn [fst] in Hwin.
  rewrite createIframeVirtualEnvironment_outcome, Hg, Hr, Hc. cbv zeta.
  destruct (nodeSatisfies (hostDom w1) browsingContext i); [discriminate|].
  by eexists _, _.
Qed.

(** ** Runs, for any relation every call respects *)

Section RunInvariant.
Variable R : World → World → Prop.
Hypothesis R_refl : ∀ w, R w w.
Hypothesis R_trans : ∀ w1 w2 w3, R w1 w2 → R w2 w3 → R w1 w3.
Hypothesis R_call : ∀ g opts w, R w (createIframeVirtualEnvironment g opts w).2.

Lemma run_call_before cs : ∀ w (k : nat) rk wk,
  runCalls cs w !! k = Some (rk, wk) →
  ∃ c wpre, cs !! k = Some c ∧ R w wpre
            ∧ createIframeVirtualEnvironment (callTarget c) (callOptions c) wpre = (rk, wk).
Proof.
  induction cs as [|c0 cs IH]; intros w k rk wk Hk; [done|].
  destruct k as [|k]; simpl in Hk.
  - injection Hk as Hk. exists c0, w. by split; [|split].
  - destruct (IH _ _ _ _ Hk) as (c & wpre & Hc & HR & Hrun).
    exists c, wpre. split; [done|]. split; [|done].
    eapply R_trans; [apply (R_call (callTarget c0) (callOptions c0))|done].
Qed.

Lemma run_call_after cs : ∀ w (i j : nat) ri wi rj wj,
  (i < j)%nat →
  runCalls cs w !! i = Some (ri, wi) → runCalls cs w !! j = Some (rj, wj) →
  ∃ c wpre, cs !! j = Some c ∧ R wi wpre
            ∧ createIframeVirtualEnvironment (callTarget c) (callOptions c) wpre = (rj, wj).
Proof.
  induction cs as [|c0 cs IH]; intros w i j ri wi rj wj Hij Hi Hj; [done|].
  destruct j as [|j]; [lia|]. destruct i as [|i]; simpl in Hi, Hj.
  - injection Hi as Hi. rewrite Hi in Hj. simpl in Hj.
    destruct (run_call_before _ _ _ _ _ Hj) as (c & wpre & Hc & HR & Hrun).
    by exists c, wpre.
  - assert (Hij' : (i < j)%nat) by lia.
    destruct (IH _ _ _ _ _ _ _ Hij' Hi Hj) as (c & wpre & Hc & HR & Hrun).
    by exists c, wpre.
Qed.

Lemma run_related cs w (k : nat) rk wk :
  runCalls cs w !! k = Some (rk, wk) → R w wk.
Proof.
  intros Hk. destruct (run_call_before _ _ _ _ _ Hk) as (c & wpre & _ & HR & Hrun).
  eapply R_trans; [done|].
  pose proof (R_call (callTarget c) (callOptions c) wpre) as Hstep. by rewrite Hrun in Hstep.
Qed.
End RunInvariant.

(** ** The DOM along a run *)

Lemma call_replays g opts w :
  ∃ evs, hostDom (createIframeVirtualEnvironment g opts w).2 = replay evs (hostDom w).
Proof.
  destruct (createIframeVirtualEnvironment g opts w) as [[env|e] w'] eqn:Hrun; cbn [snd].
  - destruct (call_Return _ _ _ _ _ Hrun)
      as (r & p & _ & _ & _ & _ & _ & _ & _ & _ & _ & Hdom & _).
    eexists (_ ++ _). unfold replay in *. by rewrite foldl_app.
  - apply call_Throw in Hrun as [-> | [[doc ->] | (r & p & _ & _ & ->)]];
      [by exists [] | by eexists..].
Qed.

Lemma call_keepsNodeIdentities g opts w :
  keepsNodeIdentities w (createIframeVirtualEnvironment g opts w).2.
Proof.
  intros n Hn. destruct (call_replays g opts w) as [evs ->]. by apply replay_keeps_nodes.
Qed.

Lemma keepsNodeIdentities_refl w : keepsNodeIdentities w w.
Proof. by intros n. Qed.

Lemma keepsNodeIdentities_trans w1 w2 w3 :
  keepsNodeIdentities w1 w2 → keepsNodeIdentities w2 w3 → keepsNodeIdentities w1 w3.
Proof. intros H12 H23 n Hn. by apply H23, H12. Qed.

Lemma returning_call_iframe g opts w env w' :
  createIframeVirtualEnvironment g opts w = (Return env, w') →
  connectorTarget (redConnector env) = VObject (ContentWindow (fresh (dom (hostDom w))))
  ∧ is_Some (hostDom w' !! fresh (dom (hostDom w))).
Proof.
  intros Hrun. destruct (call_Return _ _ _ _ _ Hrun)
    as (r & p & _ & _ & _ & Hne & _ & Hred & _ & _ & _ & Hdom & _).
  split; [by rewrite Hred|]. rewrite Hdom. apply replay_keeps_nodes.
  rewrite created_iframe_node by done. eauto.
Qed.



(** X3: closedness of the host DOM (every child identity names a node) is
    kept by every call, whatever its options and its outcome: along any
    sequence of calls started in a closed DOM, the DOM after each call is
    closed. *)
Theorem run_keeps_dom_closed cs w (k : nat) rk wk :
  domClosed (hostDom w) →
  runCalls cs w !! k = Some (rk, wk) →
  domClosed (hostDom wk).
Proof.
  intros Hcl Hk.
  refine (run_related (λ w1 w2, domClosed (hostDom w1) → domClosed (hostDom w2))
            _ _ _ cs w k rk wk Hk Hcl).
  - done.
  - intros w1 w2 w3 H12 H23 H1. by apply H23, H12.
  - intros g opts w0. apply call_domClosed.
Qed.


(** X8: no two calls of a sequence that return share their sandbox: their
    sandbox-side connectors are bound to the windows of two different
    iframes, and are different connectors. *)
Theorem sandbox_fresh_per_call cs w (i j : nat) envi wi envj wj :
  i ≠ j →
  runCalls cs w !! i = Some (Return envi, wi) →
  runCalls cs w !! j = Some (Return envj, wj) →
  ∃ fi fj,
    connectorTarget (redConnector envi) = VObject (ContentWindow fi)
    ∧ connectorTarget (redConnector envj) = VObject (ContentWindow fj)
    ∧ fi ≠ fj
    ∧ redConnector envi ≠ redConnector envj.
Proof.
  assert (Hlt : ∀ (a b : nat) enva wa envb wb,
            (a < b)%nat →
            runCalls cs w !! a = Some (Return enva, wa) →
            runCalls cs w !! b = Some (Return envb, wb) →
            ∃ fa fb,
              connectorTarget (redConnector enva) = VObject (ContentWindow fa)
              ∧ connectorTarget (redConnector envb) = VObject (ContentWindow fb)
              ∧ fa ≠ fb).
  { intros a b enva wa envb wb Hab Ha Hb.
    destruct (run_call_before keepsNodeIdentities keepsNodeIdentities_refl
                keepsNodeIdentities_trans call_keepsNodeIdentities _ _ _ _ _ Ha)
      as (ca & wprea & _ & _ & Hruna).
    destruct (run_call_after keepsNodeIdentities keepsNodeIdentities_refl
                keepsNodeIdentities_trans call_keepsNodeIdentities _ _ _ _ _ _ _ _ Hab Ha Hb)
      as (cb & wpreb & _ & Hkeep & Hrunb).
    destruct (returning_call_iframe _ _ _ _ _ Hruna) as [Hta Hina].
    destruct (returning_call_iframe _ _ _ _ _ Hrunb) as [Htb _].
    eexists _, _. split; [done|]. split; [done|].
    intros Heq. apply Hkeep in Hina. rewrite Heq, fresh_unused in Hina.
    by destruct Hina. }
  intros Hij Hi Hj.
  destruct (decide (i < j)%nat) as [Hlt'|Hge].
  - destruct (Hlt _ _ _ _ _ _ Hlt' Hi Hj) as (fi & fj & Hti & Htj & Hne).
    exists fi, fj. split; [done|]. split; [done|]. split; [done|].
    intros Heq. rewrite Heq, Htj in Hti. by injection Hti as ->.
  - assert (Hji : (j < i)%nat) by lia.
    destruct (Hlt _ _ _ _ _ _ Hji Hj Hi) as (fj & fi & Htj & Hti & Hne).
    exists fi, fj. split; [done|]. split; [done|]. split; [by intros ->|].
    intros Heq. rewrite Heq, Htj in Hti. by injection Hti as ->.
Qed.

(** ** Connectors, surfaces, options *)

Lemma lazilyBridged_all ks : lazilyBridged ks None = ks.
Proof.
  unfold lazilyBridged. induction ks as [|k ks IH]; [done|].
  rewrite filter_cons_True by apply not_elem_of_nil. by rewrite IH.
Qed.

(** X9: in any sequence of calls made from the freshly loaded module, the
    host-side connector a returning call uses was built before its
    sandbox-side connector: the sandbox-side connector is built anew by
    that call and is never the connector the weak map handed out. *)
Theorem blue_connector_older_than_red d cs (k : nat) env wk :
  runCalls cs (initialWorld d) !! k = Some (Return env, wk) →
  (connectorId (blueConnector env) < connectorId (redConnector env))%nat.
Proof.
  intros Hk.
  destruct (run_call_before evolves evolves_refl evolves_trans call_evolves _ _ _ _ _ Hk)
    as (c & wpre & _ & (_ & _ & Hsound) & Hrun).
  destruct (Hsound (cacheSound_initial d)) as [Hlt _].
  destruct (call_Return _ _ _ _ _ Hrun)
    as (r & p & _ & _ & _ & _ & Hblue & Hred & _).
  rewrite Hblue, Hred. simpl.
  destruct (blueDocumentToBlueCreateHooksCallbackMap wpre !! document r) as [cb|] eqn:Hl;
    simpl; [by apply (Hlt (document r)) | lia].
Qed.

(** X10: the exclusion list is for the global object only.  In a call that
    returns, whatever [keepAlive] is, every own key of the EventTarget
    prototype the resolver listed is bridged lazily on that prototype,
    poisoned or not, and nothing is installed eagerly on it. *)
Theorem event_target_keys_never_excluded g opts w env w' r :
  createIframeVirtualEnvironment g opts w = (Return env, w') →
  getCachedGlobalObjectReferences g = RefsRecord r →
  EventTargetProto r ≠ window r →
  lazySurface (EventTargetProto r) env = list_to_set (EventTargetProtoOwnKeys r)
  ∧ eagerSurface (EventTargetProto r) env = ∅.
Proof.
  intros Hrun Hr Hne.
  destruct (call_Return _ _ _ _ _ Hrun)
    as (r' & p & _ & Hr' & _ & _ & _ & _ & _ & _ & [keys Hops] & _).
  rewrite Hr in Hr'. injection Hr' as <-.
  unfold lazySurface, eagerSurface. rewrite Hops. unfold configuredOps.
  rewrite !fmap_app, !union_list_app_L.
  cbn [fmap list_fmap union_list foldr lazyNames eagerNames].
  assert (Hne' : window r ≠ EventTargetProto r) by (intros Heq; by apply Hne).
  rewrite decide_False by done. rewrite decide_True by done.
  rewrite lazilyBridged_all.
  destruct (endowments (assignedOptions opts));
    cbn [fmap list_fmap union_list foldr lazyNames eagerNames];
    [rewrite decide_False by done|];
    by rewrite !(left_id_L (∅ : gset PropertyKey) (∪)),
      ?(right_id_L (∅ : gset PropertyKey) (∪)).
Qed.

(** X11: [keepAlive] decides the lifecycle and the exclusion list, nothing
    else.  Two calls that differ in [keepAlive] only leave the same default
    keys, the same weak map and the same count of connectors; if one
    throws, so does the other, with the same error and world; if one
    returns, so does the other, with the same two connectors and the same
    primitives applied in the same order, exclusion lists apart. *)
Theorem keepAlive_touches_lifecycle_only g o k1 k2 w :
  let run1 := createIframeVirtualEnvironment g (Some (withKeepAlive k1 o)) w in
  let run2 := createIframeVirtualEnvironment g (Some (withKeepAlive k2 o)) w in
  defaultGlobalOwnKeys run1.2 = defaultGlobalOwnKeys run2.2
  ∧ blueDocumentToBlueCreateHooksCallbackMap run1.2
    = blueDocumentToBlueCreateHooksCallbackMap run2.2
  ∧ connectorCount run1.2 = connectorCount run2.2
  ∧ (∀ e, run1.1 = Throw e → run2 = run1)
  ∧ ∀ env1, run1.1 = Return env1 →
      ∃ env2, run2.1 = Return env2
              ∧ blueConnector env2 = blueConnector env1
              ∧ redConnector env2 = redConnector env1
              ∧ withoutExclusion <$> envOps env2 = withoutExclusion <$> envOps env1.
Proof.
  intros run1 run2. subst run1 run2.
  rewrite !createIframeVirtualEnvironment_outcome.
  destruct (notNonNullObject g); [by repeat split|].
  destruct (getCachedGlobalObjectReferences g) as [| |r]; try by repeat split.
  destruct (createDetachableIframe (document r) w) as [[i|e] w1]; [|by repeat split].
  cbv zeta. change (assignedOptions (Some ?x)) with x.
  cbn [withKeepAlive globalObjectShape endowments distortionCallback instrumentation
       fst snd logged defaultGlobalOwnKeys blueDocumentToBlueCreateHooksCallbackMap
       connectorCount].
  destruct (nodeSatisfies (hostDom w1) browsingContext i); [|by repeat split].
  repeat (split; [done|]).
  intros env1 [= <-]. eexists. split; [done|]. cbn [blueConnector redConnector envOps].
  repeat (split; [done|]). unfold configuredOps. rewrite !fmap_app.
  by cbn [fmap list_fmap withoutExclusion].
Qed.

(** X12: [distortionCallback] and [instrumentation] are handed to the
    membrane and used for nothing else.  Two calls that differ in them only
    leave the same world; if one throws, so does the other, with the same
    error; if one returns, so does the other, with the same connectors and
    the same primitives applied, each membrane holding the two values its
    call was given. *)
Theorem observers_touch_nothing_else g o d1 i1 d2 i2 w :
  let run1 := createIframeVirtualEnvironment g (Some (withObservers d1 i1 o)) w in
  let run2 := createIframeVirtualEnvironment g (Some (withObservers d2 i2 o)) w in
  run1.2 = run2.2
  ∧ (∀ e, run1.1 = Throw e → run2.1 = Throw e)
  ∧ ∀ env1, run1.1 = Return env1 →
      ∃ env2, run2.1 = Return env2
              ∧ envDistortionCallback env1 = d1 ∧ envInstrumentation env1 = i1
              ∧ envDistortionCallback env2 = d2 ∧ envInstrumentation env2 = i2
              ∧ blueConnector env2 = blueConnector env1
              ∧ redConnector env2 = redConnector env1
              ∧ envOps env2 = envOps env1.
Proof.
  intros run1 run2. subst run1 run2.
  rewrite !createIframeVirtualEnvironment_outcome.
  destruct (notNonNullObject g); [by repeat split|].
  destruct (getCachedGlobalObjectReferences g) as [| |r]; try by repeat split.
  destruct (createDetachableIframe (document r) w) as [[i|e] w1]; [|by repeat split].
  cbv zeta. change (assignedOptions (Some ?x)) with x.
  cbn [withObservers globalObjectShape endowments distortionCallback instrumentation
       keepAliveOf keepAlive fst snd].
  destruct (nodeSatisfies (hostDom w1) browsingContext i); [|by repeat split].
  split; [done|]. split; [discriminate|].
  intros env1 [= <-]. eexists. split; [done|]. by repeat split.
Qed.
End BrowserRealmMore.

(** ** What the enumeration of global keys is asked *)

(** X13: [getFilteredGlobalOwnKeys] is asked about the custom shape when a
    valid one is given, about the content window of the new iframe (null
    when the iframe got no browsing context) when the default keys are
    wanted and not yet cached, and about nothing once they are cached.
    Replacing it by any enumeration that agrees with it there changes
    neither the result nor the world the call leaves; in particular what it
    would answer for the host global object never matters. *)
Theorem global_keys_enumerated_where_needed (h : Collaborators)
    (f : Value → PropertyKeys) g opts w :
  let shape := from_option globalObjectShape VUndefined opts in
  let i := fresh (dom (hostDom w)) in
  (if notNonNullObject shape
   then is_Some (defaultGlobalOwnKeys w)
        ∨ ∀ red, red = VObject (ContentWindow i) ∨ red = VNull →
                 f red = getFilteredGlobalOwnKeys (Collaborators := h) red
   else f shape = getFilteredGlobalOwnKeys (Collaborators := h) shape) →
  createIframeVirtualEnvironment (host := withGlobalOwnKeys f h) g opts w
  = createIframeVirtualEnvironment (host := h) g opts w.
Proof.
  intros shape i Hf.
  rewrite (createIframeVirtualEnvironment_outcome (host := h)).
  rewrite (createIframeVirtualEnvironment_outcome (host := withGlobalOwnKeys f h)).
  cbn [withGlobalOwnKeys getCachedGlobalObjectReferences].
  destruct (notNonNullObject g); [done|].
  destruct (getCachedGlobalObjectReferences g) as [| |r]; try done.
  destruct (createDetachableIframe (document r) w) as [[i0|e] w1] eqn:Hc; [|done].
  apply createDetachableIframe_Return in Hc as (-> & _). fold i.
  cbv zeta. unfold configuredOps, filterEndowments, removeWindowDescriptors,
    shouldUseDefaultGlobalOwnKeys.
  cbn [withGlobalOwnKeys getFilteredGlobalOwnKeys filterWindowKeys
       unforgeablePoisonedWindowKeys globalOwnedDescriptorNames globalThisDefined].
  rewrite globalObjectShape_assigned. fold shape. destruct (notNonNullObject shape).
  - destruct Hf as [[ks Hks] | Hf].
    + rewrite Hks. by rewrite bool_decide_eq_false_2.
    + destruct (nodeSatisfies (hostDom w1) browsingContext i).
      * by rewrite (Hf (VObject (ContentWindow i))) by by left.
      * by rewrite (Hf VNull) by by right.
  - by rewrite Hf.
Qed.

(** * Concrete runs, continued *)

(** X1, witness: on the sample host, a call without options and a call
    that keeps the sandbox alive. *)
Lemma returning_call_footprint_witness :
  (∃ env w',
     createIframeVirtualEnvironment (host := sampleHost) (VObject (HostRef 0))
       None (initialWorld sampleDom) = (Return env, w')
     ∧ ∃ r p,
         getCachedGlobalObjectReferences (Collaborators := sampleHost) (VObject (HostRef 0))
         = RefsRecord r
         ∧ iframeParent sampleDom (document r) = Some p
         ∧ sampleDom !! 4 = None
         ∧ hostDom w' = <[4 := iframeNode false]> sampleDom)
  ∧ ∃ env w',
      createIframeVirtualEnvironment (host := sampleHost) (VObject (HostRef 0))
        (Some (sampleOptions true VUndefined)) (initialWorld sampleDom) = (Return env, w')
      ∧ ∃ r p,
          getCachedGlobalObjectReferences (Collaborators := sampleHost) (VObject (HostRef 0))
          = RefsRecord r
          ∧ iframeParent sampleDom (document r) = Some p
          ∧ sampleDom !! 4 = None
          ∧ hostDom w'
            = <[4 := iframeNode true]> (alter (withChildren (λ cs, cs ++ [4])) p sampleDom).
Proof.
  split.
  - eexists _, _. split; [vm_compute; reflexivity|].
    eapply (returning_call_footprint (host := sampleHost) (VObject (HostRef 0))
              None (initialWorld sampleDom)).
    + apply domClosedb_closed. vm_compute; reflexivity.
    + vm_compute; reflexivity.
  - eexists _, _. split; [vm_compute; reflexivity|].
    eapply (returning_call_footprint (host := sampleHost) (VObject (HostRef 0))
              (Some (sampleOptions true VUndefined)) (initialWorld sampleDom)).
    + apply domClosedb_closed. vm_compute; reflexivity.
    + vm_compute; reflexivity.
Defined.


(** X3, witness: the three sample calls, the last of which keeps its iframe
    attached. *)
Lemma run_keeps_dom_closed_witness :
  ∃ rk wk,
    runCalls (host := sampleHost) sampleCalls (initialWorld twoDocumentsDom) !! 2
    = Some (rk, wk)
    ∧ domClosed (hostDom wk).
Proof.
  eexists _, _. split; [vm_compute; reflexivity|].
  eapply (run_keeps_dom_closed (host := sampleHost) sampleCalls
            (initialWorld twoDocumentsDom) 2).
  - apply domClosedb_closed. vm_compute; reflexivity.
  - vm_compute; reflexivity.
Defined.


(** X5, witness: the last child of the document is a comment, which takes
    no element child. *)
Lemma createDetachableIframe_returns_or_throws_witness :
  domClosed commentTailDom
  ∧ createDetachableIframe 0 (initialWorld commentTailDom)
    = (Throw HierarchyRequestError,
       logged (iframeSetupEvents 0 4) (initialWorld commentTailDom)).
Proof.
  assert (Hcl : domClosed commentTailDom).
  { apply domClosedb_closed. vm_compute; reflexivity. }
  split; [exact Hcl|].
  destruct (createDetachableIframe_returns_or_throws 0 (initialWorld commentTailDom) Hcl)
    as [_ Hdoc].
  destruct (Hdoc eq_refl) as (_ & Hrefused & _).
  apply (Hrefused 3); vm_compute; reflexivity.
Defined.


(** X7, witness: the iframe is appended to the body of the sample
    document, which has a browsing context. *)
Lemma createDetachableIframe_footprint_witness :
  ∃ i w',
    createDetachableIframe 0 (initialWorld sampleDom) = (Return i, w')
    ∧ ∃ p hosting,
        iframeParent sampleDom 0 = Some p
        ∧ sampleDom !! i = None
        ∧ hostDom w'
          = <[i := iframeNode hosting]>
              (alter (withChildren (λ cs, cs ++ [i])) p sampleDom)
        ∧ hosting = true
        ∧ domLog w' = [] ++ iframeEvents 0 i p
        ∧ defaultGlobalOwnKeys w' = None
        ∧ blueDocumentToBlueCreateHooksCallbackMap w' = ∅
        ∧ connectorCount w' = 0.
Proof.
  eexists _, _. split; [vm_compute; reflexivity|].
  epose proof (createDetachableIframe_footprint 0 (initialWorld sampleDom) _ _
                 (domClosedb_closed sampleDom eq_refl)) as Hthm.
  match type of Hthm with
  | ?A → _ => assert (Hrun : A) by (vm_compute; reflexivity)
  end.
  destruct (Hthm Hrun) as (p & hosting & Hp & Hi & Hdom & Hhost & Hrest).
  exists p, hosting. split; [exact Hp|]. split; [exact Hi|]. split; [exact Hdom|].
  split; [apply Hhost; reflexivity | exact Hrest].
Defined.

(** X8, witness: the first and the third of the sample calls, on the same
    window. *)
Lemma sandbox_fresh_per_call_witness :
  ∃ envi wi envj wj,
    runCalls (host := sampleHost) sampleCalls (initialWorld twoDocumentsDom) !! 0
    = Some (Return envi, wi)
    ∧ runCalls (host := sampleHost) sampleCalls (initialWorld twoDocumentsDom) !! 2
      = Some (Return envj, wj)
    ∧ ∃ fi fj,
        connectorTarget (redConnector envi) = VObject (ContentWindow fi)
        ∧ connectorTarget (redConnector envj) = VObject (ContentWindow fj)
        ∧ fi ≠ fj
        ∧ redConnector envi ≠ redConnector envj.
Proof.
  eexists _, _, _, _. split; [vm_compute; reflexivity|]. split; [vm_compute; reflexivity|].
  eapply (sandbox_fresh_per_call (host := sampleHost) sampleCalls
            (initialWorld twoDocumentsDom) 0 2).
  - discriminate.
  - vm_compute; reflexivity.
  - vm_compute; reflexivity.
Defined.

(** X9, witness: the third of the sample calls, whose host-side connector
    comes from the weak map. *)
Lemma blue_connector_older_than_red_witness :
  ∃ env wk,
    runCalls (host := sampleHost) sampleCalls (initialWorld twoDocumentsDom) !! 2
    = Some (Return env, wk)
    ∧ (connectorId (blueConnector env) < connectorId (redConnector env))%nat.
Proof.
  eexists _, _. split; [vm_compute; reflexivity|].
  eapply (blue_connector_older_than_red (host := sampleHost) twoDocumentsDom sampleCalls 2).
  vm_compute; reflexivity.
Defined.

(** X10, witness: the default lifecycle, on the sample host. *)
Lemma event_target_keys_never_excluded_witness :
  ∃ env w',
    createIframeVirtualEnvironment (host := sampleHost) (VObject (HostRef 0))
      (Some (sampleOptions false VUndefined)) (initialWorld sampleDom) = (Return env, w')
    ∧ lazySurface (VObject (HostRef 101)) env
      = list_to_set [KString "addEventListener"; KString "dispatchEvent"]
    ∧ eagerSurface (VObject (HostRef 101)) env = ∅.
Proof.
  eexists _, _. split; [vm_compute; reflexivity|].
  eapply (event_target_keys_never_excluded (host := sampleHost) (VObject (HostRef 0))
            (Some (sampleOptions false VUndefined)) (initialWorld sampleDom) _ _
            (sampleRefs 0 (VObject (HostRef 0)))).
  - vm_compute; reflexivity.
  - reflexivity.
  - discriminate.
Defined.

(** X11, witness: [keepAlive] true against [keepAlive] omitted, on the
    sample host. *)
Lemma keepAlive_touches_lifecycle_only_witness :
  ∃ env1 w1,
    createIframeVirtualEnvironment (host := sampleHost) (VObject (HostRef 0))
      (Some (withKeepAlive (Some true) (sampleOptions false VUndefined)))
      (initialWorld sampleDom) = (Return env1, w1)
    ∧ ∃ env2,
        (createIframeVirtualEnvironment (host := sampleHost) (VObject (HostRef 0))
           (Some (withKeepAlive None (sampleOptions false VUndefined)))
           (initialWorld sampleDom)).1 = Return env2
        ∧ blueConnector env2 = blueConnector env1
        ∧ redConnector env2 = redConnector env1
        ∧ withoutExclusion <$> envOps env2 = withoutExclusion <$> envOps env1.
Proof.
  eexists _, _. split; [vm_compute; reflexivity|].
  eapply (keepAlive_touches_lifecycle_only (host := sampleHost) (VObject (HostRef 0))
            (sampleOptions false VUndefined) (Some true) None (initialWorld sampleDom)).
  vm_compute; reflexivity.
Defined.

(** X12, witness: two calls on the sample host that differ in their
    distortion callback and instrumentation. *)
Lemma observers_touch_nothing_else_witness :
  ∃ env1 w1,
    createIframeVirtualEnvironment (host := sampleHost) (VObject (HostRef 0))
      (Some (withObservers (VString "distort") VUndefined (sampleOptions false VUndefined)))
      (initialWorld sampleDom) = (Return env1, w1)
    ∧ ∃ env2,
        (createIframeVirtualEnvironment (host := sampleHost) (VObject (HostRef 0))
           (Some (withObservers VUndefined (VString "instrument")
                    (sampleOptions false VUndefined)))
           (initialWorld sampleDom)).1 = Return env2
        ∧ envDistortionCallback env1 = VString "distort"
        ∧ envInstrumentation env1 = VUndefined
        ∧ envDistortionCallback env2 = VUndefined
        ∧ envInstrumentation env2 = VString "instrument"
        ∧ blueConnector env2 = blueConnector env1
        ∧ redConnector env2 = redConnector env1
        ∧ envOps env2 = envOps env1.
Proof.
  eexists _, _. split; [vm_compute; reflexivity|].
  eapply (observers_touch_nothing_else (host := sampleHost) (VObject (HostRef 0))
            (sampleOptions false VUndefined) (VString "distort") VUndefined
            VUndefined (VString "instrument") (initialWorld sampleDom)).
  vm_compute; reflexivity.
Defined.

(** X13, witness: with the custom shape [HostRef 7], an enumeration that
    agrees with the sample host on that shape and yields nothing for any
    other object, the host global object and the sandbox window included;
    and without options, an enumeration that agrees with the sample host
    on content windows and on null, and yields nothing for the host global
    object. *)
Lemma global_keys_enumerated_where_needed_witness :
  createIframeVirtualEnvironment
    (host := withGlobalOwnKeys
               (λ v, match v with VObject (HostRef 7) => [KString "foo"] | _ => [] end)
               sampleHost)
    (VObject (HostRef 0)) (Some (sampleOptions false (VObject (HostRef 7))))
    (initialWorld sampleDom)
  = createIframeVirtualEnvironment (host := sampleHost) (VObject (HostRef 0))
      (Some (sampleOptions false (VObject (HostRef 7)))) (initialWorld sampleDom)
  ∧ createIframeVirtualEnvironment
      (host := withGlobalOwnKeys
                 (λ v, match v with
                       | VObject (ContentWindow _) =>
                           [KString "window"; KString "document"; KString "setTimeout"]
                       | _ => []
                       end)
                 sampleHost)
      (VObject (HostRef 0)) None (initialWorld sampleDom)
    = createIframeVirtualEnvironment (host := sampleHost) (VObject (HostRef 0))
        None (initialWorld sampleDom).
Proof.
  split.
  - apply (global_keys_enumerated_where_needed sampleHost
             (λ v, match v with VObject (HostRef 7) => [KString "foo"] | _ => [] end)
             (VObject (HostRef 0)) (Some (sampleOptions false (VObject (HostRef 7))))
             (initialWorld sampleDom)).
    reflexivity.
  - apply (global_keys_enumerated_where_needed sampleHost
             (λ v, match v with
                   | VObject (ContentWindow _) =>
                       [KString "window"; KString "document"; KString "setTimeout"]
                   | _ => []
                   end)
             (VObject (HostRef 0)) None (initialWorld sampleDom)).
    right. intros red [-> | ->]; reflexivity.
Defined.

(** X14, witness: the document of the sample window is the document of no
    browsing context; the call throws and the iframe is left as the last
    child of the body. *)
Lemma null_content_window_throws_witness :
  ∃ e w',
    createIframeVirtualEnvironment (host := sampleHost) (VObject (HostRef 0)) None
      (initialWorld inactiveDocumentDom) = (Throw e, w')
    ∧ hostDom w' = hostDom (createDetachableIframe 0 (initialWorld inactiveDocumentDom)).2
    ∧ domLog w' = domLog (createDetachableIframe 0 (initialWorld inactiveDocumentDom)).2.
Proof.
  eapply (null_content_window_throws (host := sampleHost) (VObject (HostRef 0)) None
            (initialWorld inactiveDocumentDom) (sampleRefs 0 (VObject (HostRef 0))) 4).
  - reflexivity.
  - discriminate.
  - reflexivity.
  - vm_compute; reflexivity.
  - vm_compute; reflexivity.
Defined.
